(** * Admin routes and client-side security helpers

    A shallow embedding of [server/routes/admin.ts] (together with the stricter
    validation schemas of its sibling route file) and of
    [client/lib/security.ts], and the properties of the design contract
    established on it.

    Conventions.
    - A JavaScript string is the list of its UTF-16 code units ([jsstring]).
    - A JavaScript number that the code only compares, tests for integrality
      or copies is a rational [JNum n d]; NaN and the infinities are separate
      values.  Times are integers (milliseconds since the epoch), as
      [Date.now()] returns them.
    - The identity provider, the clock, the random generator and the UUID test
      of the validation library are external: they are fields of [Env].
    - Handlers are written in a state-and-exception monad over [World], which
      holds the record store and the log of the operations issued to it.
      The store answers every operation; console output is left out.
    - A response holds the status and the value handed to [res.json];
      [res_json] gives that value as the JSON encoding sends it.
    - The sibling route file calls [verifyAdmin] and [adminDb] without
      defining them: they are those of [server/routes/admin.ts], and its
      handlers, which read the same, are the same definitions taken with the
      [strict] schemas.
    - [DOMPurify], used by the sanitizer, is external: the sanitizer takes it
      as a parameter. *)

From Stdlib Require Import ZArith NArith Lia Decimal DecimalPos.
From Stdlib.Strings Require Byte.
From stdpp Require Import gmap strings list fin_maps.

Local Open Scope Z_scope.

(** ** JavaScript strings *)

Abbreviation jsstring := (list N).

(** A literal: the code units of an ASCII string. *)
Definition lit (s : string) : jsstring :=
  Ascii.N_of_ascii <$> String.list_ascii_of_string s.

Definition in_range (lo hi c : N) : bool := ((lo <=? c) && (c <=? hi))%N.

Definition is_digit (c : N) : bool := in_range 48 57 c.
Definition is_upper (c : N) : bool := in_range 65 90 c.
Definition is_lower (c : N) : bool := in_range 97 122 c.
Definition is_alnum (c : N) : bool := is_digit c || is_upper c || is_lower c.
(** [\w] *)
Definition is_word (c : N) : bool := is_alnum c || (c =? 95)%N.

(** [toUpperCase] on ASCII letters; the code applies it to radix-36 numerals
    and regular expressions with the [i] flag compare ASCII letters this way
    (a code unit above 127 never folds onto an ASCII letter). *)
Definition upper (c : N) : N := if is_lower c then (c - 32)%N else c.
Definition toUpperCase (s : jsstring) : jsstring := upper <$> s.

(** [s.substr(start, len)] for non-negative arguments. *)
Definition substr (start len : nat) (s : jsstring) : jsstring :=
  take len (drop start s).

Fixpoint starts_with (p s : jsstring) : bool :=
  match p, s with
  | [], _ => true
  | _ :: _, [] => false
  | a :: p', b :: s' => (a =? b)%N && starts_with p' s'
  end.

(** WhiteSpace and LineTerminator code points, the ones [trim] removes. *)
Definition is_whitespace (c : N) : bool :=
  (in_range 9 13 c || (c =? 32) || (c =? 160) || (c =? 5760)
   || in_range 8192 8202 c || (c =? 8232) || (c =? 8233) || (c =? 8239)
   || (c =? 8287) || (c =? 12288) || (c =? 65279))%N.

Fixpoint trimStart (s : jsstring) : jsstring :=
  match s with
  | [] => []
  | c :: s' => if is_whitespace c then trimStart s' else s
  end.

Definition trimEnd (s : jsstring) : jsstring := rev (trimStart (rev s)).

Definition trim (s : jsstring) : jsstring := trimEnd (trimStart s).

(** [s.split(sep)] for a non-empty separator: [skip] counts the code units of
    a separator occurrence still to be passed over, [cur] is the piece being
    collected. *)
Fixpoint split_go (sep s : jsstring) (skip : nat) (cur : jsstring)
  : list jsstring :=
  match s with
  | [] => [cur]
  | c :: s' =>
      match skip with
      | S k => split_go sep s' k cur
      | O =>
          if starts_with sep s
          then cur :: split_go sep s' (length sep - 1)%nat []
          else split_go sep s' O (cur ++ [c])
      end
  end.

Definition split (sep s : jsstring) : list jsstring := split_go sep s O [].

(** Decimal rendering of an integer, as a template literal prints it. *)
Fixpoint uint_digits (u : uint) : jsstring :=
  match u with
  | Nil => []
  | D0 u => 48%N :: uint_digits u
  | D1 u => 49%N :: uint_digits u
  | D2 u => 50%N :: uint_digits u
  | D3 u => 51%N :: uint_digits u
  | D4 u => 52%N :: uint_digits u
  | D5 u => 53%N :: uint_digits u
  | D6 u => 54%N :: uint_digits u
  | D7 u => 55%N :: uint_digits u
  | D8 u => 56%N :: uint_digits u
  | D9 u => 57%N :: uint_digits u
  end.

Definition decimal (z : Z) : jsstring :=
  match z with
  | Z0 => [48%N]
  | Zpos p => uint_digits (Pos.to_uint p)
  | Zneg p => 45%N :: uint_digits (Pos.to_uint p)
  end.

(** ** JavaScript values *)

Inductive jsval :=
| JUndefined
| JNull
| JBool (b : bool)
| JNum (n : Z) (d : positive)      (* the finite number n/d *)
| JNaN
| JInf (negative : bool)
| JStr (s : jsstring)
| JObject (repr : jsstring).       (* any object or array, e.g. a timestamp *)

(** ToBoolean. *)
Definition truthy (v : jsval) : bool :=
  match v with
  | JUndefined | JNull | JNaN => false
  | JBool b => b
  | JNum n _ => negb (n =? 0)
  | JInf _ => true
  | JStr s => match s with [] => false | _ => true end
  | JObject _ => true
  end.

(** A JSON object or a stored document: field name to value.  Reading a field
    that is not there yields [undefined]. *)
Definition field (o : gmap string jsval) (k : string) : jsval :=
  default JUndefined (o !! k).

(** ** The record store *)

Inductive Plan := Free | Classic | Pro.

Record BanRecord := mkBan {
  userId : jsstring;
  reason : jsstring;
  bannedBy : jsstring;
  bannedAt : Z;
  duration : Z;
  expiresAt : option Z            (* [None]: an invalid Date *)
}.

Record LicenseRecord := mkLicense {
  key : jsstring;
  plan : Plan;
  validityDays : Z;
  createdBy : jsstring;
  createdAt : Z;
  used : bool;
  usedBy : option jsstring;       (* [None]: null *)
  usedAt : option Z               (* [None]: null *)
}.

(** The three collections.  [bans] documents get generated ids ([add]), so the
    collection is the sequence of the records added; [users] and [licenses]
    are keyed by document id. *)
Record Store := mkStore {
  users : gmap jsstring (gmap string jsval);
  bans : list BanRecord;
  licenses : gmap jsstring LicenseRecord
}.

Inductive DbOp :=
| DocGet (collection : string) (id : jsstring)
| CollectionGet (collection : string)
| DocAdd (collection : string)
| DocSet (collection : string) (id : jsstring).

Definition is_write (o : DbOp) : bool :=
  match o with
  | DocAdd _ | DocSet _ _ => true
  | DocGet _ _ | CollectionGet _ => false
  end.

(** ** Environment and world *)

Record Env := mkEnv {
  (** [adminAuth] is undefined unless the service-account credential was
      present and the SDK initialised; when defined it holds
      [verifyIdToken], which yields the token's subject or rejects. *)
  adminAuth : option (jsstring -> option jsstring);
  (** successive readings of the clock ([Date.now()], [new Date()]) *)
  clock : nat -> Z;
  (** the fractional radix-36 digits of successive [Math.random()] results *)
  random36 : nat -> list nat;
  (** the validation library's UUID test *)
  zod_uuid : jsstring -> bool
}.

(** Module initialisation: the handles are set only if the credential
    [FIREBASE_SERVICE_ACCOUNT_KEY] is present (and not empty) and [connect]
    (parsing it and initialising the SDK with it) does not throw. *)
Definition initialise (serviceAccountKey : option jsstring)
    (connect : jsstring -> option (jsstring -> option jsstring))
  : option (jsstring -> option jsstring) :=
  match serviceAccountKey with
  | Some (c :: k) => connect (c :: k)
  | _ => None
  end.

Record World := mkWorld {
  store : Store;
  oplog : list DbOp;              (* operations issued to the store, oldest first *)
  ticks : nat;                    (* clock readings taken *)
  draws : nat                     (* random numbers drawn *)
}.

Inductive Thrown :=
| Error (message : string)
| ZodError
| TokenRejected.

Inductive Outcome (A : Type) :=
| Returned (a : A)
| Threw (e : Thrown).
Arguments Returned {A} a.
Arguments Threw {A} e.

Definition M (A : Type) : Type := World -> Outcome A * World.

Definition ret {A} (a : A) : M A := fun w => (Returned a, w).
Definition throw {A} (e : Thrown) : M A := fun w => (Threw e, w).
Definition bind {A B} (m : M A) (k : A -> M B) : M B :=
  fun w => match m w with
           | (Returned a, w') => k a w'
           | (Threw e, w') => (Threw e, w')
           end.

Declare Scope handler_scope.
Delimit Scope handler_scope with handler.
Notation "x <- m ;; k" := (bind m (fun x => k))
  (at level 100, m at next level, right associativity) : handler_scope.
Notation "m ;;; k" := (bind m (fun _ => k))
  (at level 100, right associativity) : handler_scope.

(** [try { ... } catch (error) { ... }] around a handler body. *)
Definition try_catch {A} (m : M A) (handler : Thrown -> A) : World -> A * World :=
  fun w => match m w with
           | (Returned a, w') => (a, w')
           | (Threw e, w') => (handler e, w')
           end.

Definition issue (o : DbOp) (w : World) : World :=
  mkWorld (store w) (oplog w ++ [o]) (ticks w) (draws w).

Definition users_doc_get (id : jsstring) : M (option (gmap string jsval)) :=
  fun w => (Returned (users (store w) !! id), issue (DocGet "users" id) w).

Definition users_get : M (list (jsstring * gmap string jsval)) :=
  fun w => (Returned (map_to_list (users (store w))), issue (CollectionGet "users") w).

Definition bans_add (b : BanRecord) : M unit :=
  fun w =>
    let s := store w in
    (Returned tt,
     issue (DocAdd "bans")
       (mkWorld (mkStore (users s) (bans s ++ [b]) (licenses s))
          (oplog w) (ticks w) (draws w))).

Definition licenses_doc_set (id : jsstring) (l : LicenseRecord) : M unit :=
  fun w =>
    let s := store w in
    (Returned tt,
     issue (DocSet "licenses" id)
       (mkWorld (mkStore (users s) (bans s) (<[id := l]> (licenses s)))
          (oplog w) (ticks w) (draws w))).

(** ** Validation schemas *)

(** [z.string()] *)
Definition z_string (v : jsval) : option jsstring :=
  match v with JStr s => Some s | _ => None end.

(** [z.number().int()]: a number (NaN is not accepted) for which
    [Number.isInteger] holds; the result is its integer value. *)
Definition z_int (v : jsval) : option Z :=
  match v with
  | JNum n d => if n mod Z.pos d =? 0 then Some (n / Z.pos d) else None
  | _ => None
  end.

(** [z.enum(["Free", "Classic", "Pro"])] *)
Definition z_plan (v : jsval) : option Plan :=
  match v with
  | JStr s =>
      if decide (s = lit "Free") then Some Free
      else if decide (s = lit "Classic") then Some Classic
      else if decide (s = lit "Pro") then Some Pro
      else None
  | _ => None
  end.

Definition guard (b : bool) : option unit := if b then Some tt else None.

Definition len (s : jsstring) : Z := Z.of_nat (length s).

(** [/^[A-Za-z0-9_\-\.]+$/] *)
Definition token_format (s : jsstring) : bool :=
  match s with
  | [] => false
  | _ => forallb (fun c => is_alnum c || (c =? 95)%N || (c =? 45)%N || (c =? 46)%N) s
  end.

(** The route file [server/routes/admin.ts] and its sibling with "strict
    constraints" declare schemas of the same names with different bounds. *)
Inductive SchemaSet := original | strict.

Definition idToken_schema (v : SchemaSet) (x : jsval) : option jsstring :=
  s ← z_string x;
  match v with
  | original => guard (1 <=? len s)
  | strict => guard ((10 <=? len s) && (len s <=? 3000) && token_format s)
  end;;
  Some s.

Definition VerifyAdminSchema (v : SchemaSet) (body : gmap string jsval)
  : option jsstring :=
  idToken_schema v (field body "idToken").

Record BanUserInput := mkBanUserInput {
  ban_idToken : jsstring;
  ban_userId : jsstring;
  ban_reason : jsstring;
  ban_duration : Z
}.

Definition userId_schema (v : SchemaSet) (uuid : jsstring -> bool) (x : jsval)
  : option jsstring :=
  s ← z_string x;
  match v with
  | original => guard (uuid s || (10 <=? len s))
  | strict => guard ((10 <=? len s) && (len s <=? 100))
  end;;
  Some s.

(** In the strict schema [trim()] comes after the length checks, which
    therefore see the untrimmed text. *)
Definition reason_schema (v : SchemaSet) (x : jsval) : option jsstring :=
  s ← z_string x;
  guard ((5 <=? len s) && (len s <=? 500));;
  Some (match v with original => s | strict => trim s end).

Definition duration_schema (v : SchemaSet) (x : jsval) : option Z :=
  n ← z_int x;
  match v with
  | original => guard (0 <? n)
  | strict => guard ((1 <=? n) && (n <=? 36500))
  end;;
  Some n.

Definition BanUserSchema (v : SchemaSet) (uuid : jsstring -> bool)
    (body : gmap string jsval) : option BanUserInput :=
  t ← idToken_schema v (field body "idToken");
  u ← userId_schema v uuid (field body "userId");
  r ← reason_schema v (field body "reason");
  d ← duration_schema v (field body "duration");
  Some (mkBanUserInput t u r d).

(** The schema written inline in [handleCreateLicense]. *)
Definition license_schema (body : gmap string jsval) : option (Plan * Z) :=
  p ← z_plan (field body "plan");
  n ← z_int (field body "validityDays");
  guard (0 <? n);;
  Some (p, n).

(** ** Requests and responses *)

Record Request := mkRequest {
  authorization : option jsstring;     (* the Authorization header *)
  body : gmap string jsval
}.

Inductive Payload :=
| AdminVerified (adminUid : jsstring)          (* success, adminUid *)
| UserBanned                                   (* success, "User banned successfully" *)
| UserList (userViews : list (list (string * jsval)))   (* success, users *)
| LicenseCreated (licenseKey : jsstring)       (* success, licenseKey *)
| Failure (error : string) (details : option Thrown).

Record Response := mkResponse { status : nat; payload : Payload }.

Definition is_error (r : Response) : bool :=
  match payload r with Failure _ _ => true | _ => false end.

(** [new Date(t)]: a time value beyond 8.64e15 ms in magnitude gives an
    invalid Date. *)
Definition new_Date (t : Z) : option Z :=
  if Z.abs t <=? 8640000000000000 then Some t else None.

(** [x.toString(36)] for a number in [0,1) with the given fractional digits. *)
Definition digit36 (d : nat) : N :=
  let d := (d mod 36)%nat in
  if (d <? 10)%nat then (48 + N.of_nat d)%N else (87 + N.of_nat d)%N.

Definition toString36 (frac : list nat) : jsstring :=
  match frac with
  | [] => [48%N]
  | _ => 48%N :: 46%N :: (digit36 <$> frac)
  end.

(** [req.headers.authorization?.split("Bearer ")[1]] *)
Definition bearer_token (req : Request) : option jsstring :=
  h ← authorization req; split (lit "Bearer ") h !! 1%nat.

(** The object built for each document by [handleGetAllUsers], as the list
    of its properties in order. *)
Definition user_view (doc : jsstring * gmap string jsval) : list (string * jsval) :=
  [ ("uid", JStr doc.1);
    ("email", field doc.2 "email");
    ("displayName", field doc.2 "displayName");
    ("isAdmin", field doc.2 "isAdmin");
    ("plan", field doc.2 "plan");
    ("createdAt", field doc.2 "createdAt") ].

(** ** The handlers *)

Section Handlers.
Variable env : Env.
Variable schemas : SchemaSet.

Local Open Scope handler_scope.

(** [Date.now()], and the time value of [new Date()]. *)
Definition Date_now : M Z :=
  fun w => (Returned (clock env (ticks w)),
            mkWorld (store w) (oplog w) (S (ticks w)) (draws w)).

(** [Math.random().toString(36)] *)
Definition Math_random_toString36 : M jsstring :=
  fun w => (Returned (toString36 (random36 env (draws w))),
            mkWorld (store w) (oplog w) (ticks w) (S (draws w))).

Definition parsed {A} (o : option A) : M A :=
  match o with Some a => ret a | None => throw ZodError end.

(** Verify the ID token and check admin status. *)
Definition verifyAdmin (idToken : jsstring) : M jsstring :=
  match adminAuth env with
  | None => throw (Error "Admin SDK not initialized")
  | Some verifyIdToken =>
      match verifyIdToken idToken with
      | None => throw TokenRejected
      | Some uid =>
          userDoc <- users_doc_get uid ;;
          match userDoc with
          | Some data =>
              if truthy (field data "isAdmin") then ret uid
              else throw (Error "Unauthorized: Not an admin")
          | None => throw (Error "Unauthorized: Not an admin")
          end
      end
  end.

Definition handleVerifyAdmin (req : Request) : World -> Response * World :=
  try_catch
    (idToken <- parsed (VerifyAdminSchema schemas (body req)) ;;
     adminUid <- verifyAdmin idToken ;;
     ret (mkResponse 200 (AdminVerified adminUid)))
    (fun e => mkResponse 401 (Failure "Unauthorized" (Some e))).

Definition handleBanUser (req : Request) : World -> Response * World :=
  try_catch
    (input <- parsed (BanUserSchema schemas (zod_uuid env) (body req)) ;;
     adminUid <- verifyAdmin (ban_idToken input) ;;
     targetUserDoc <- users_doc_get (ban_userId input) ;;
     match targetUserDoc with
     | None => ret (mkResponse 404 (Failure "User not found" None))
     | Some data =>
         if truthy (field data "isAdmin")
         then ret (mkResponse 403 (Failure "Cannot ban admin users" None))
         else
           issued <- Date_now ;;                (* bannedAt: new Date() *)
           now <- Date_now ;;                   (* Date.now() *)
           bans_add (mkBan (ban_userId input) (ban_reason input) adminUid
                       issued (ban_duration input)
                       (new_Date (now + ban_duration input * 1000))) ;;;
           ret (mkResponse 200 UserBanned)
     end)
    (fun e => mkResponse 400 (Failure "Failed to ban user" (Some e))).

Definition header_token (req : Request) : M jsstring :=
  match bearer_token req with
  | Some (c :: t) => ret (c :: t)
  | _ => throw (Error "No ID token provided")
  end.

Definition handleGetAllUsers (req : Request) : World -> Response * World :=
  try_catch
    (idToken <- header_token req ;;
     verifyAdmin idToken ;;;
     docs <- users_get ;;
     ret (mkResponse 200 (UserList (user_view <$> docs))))
    (fun e => mkResponse 401 (Failure "Unauthorized" (Some e))).

Definition handleCreateLicense (req : Request) : World -> Response * World :=
  try_catch
    (idToken <- header_token req ;;
     adminUid <- verifyAdmin idToken ;;
     input <- parsed (license_schema (body req)) ;;
     now <- Date_now ;;
     rnd <- Math_random_toString36 ;;
     let licenseKey :=
       lit "LIC-" ++ decimal now ++ lit "-" ++ toUpperCase (substr 2 9 rnd) in
     created <- Date_now ;;                     (* createdAt: new Date() *)
     licenses_doc_set licenseKey
       (mkLicense licenseKey input.1 input.2 adminUid created false None None) ;;;
     ret (mkResponse 200 (LicenseCreated licenseKey)))
    (fun e => mkResponse 400 (Failure "Failed to create license" (Some e))).

End Handlers.

Inductive AdminOp := VerifyAdminOp | BanUserOp | ListUsersOp | CreateLicenseOp.

Definition handle (op : AdminOp) (env : Env) (schemas : SchemaSet)
  : Request -> World -> Response * World :=
  match op with
  | VerifyAdminOp => handleVerifyAdmin env schemas
  | BanUserOp => handleBanUser env schemas
  | ListUsersOp => handleGetAllUsers env
  | CreateLicenseOp => handleCreateLicense env
  end.

(** ** Notions used in the statements *)

(** The admin check on the stored record: it exists and its [isAdmin] field
    is truthy. *)
Definition is_admin (s : Store) (uid : jsstring) : bool :=
  match users s !! uid with
  | Some data => truthy (field data "isAdmin")
  | None => false
  end.

(** The write operations issued so far. *)
Definition writes (w : World) : list DbOp := List.filter is_write (oplog w).

(** The token a request presents to an operation: in the body for
    verify-admin and ban-user, in the Authorization header for the others. *)
Definition presented_token (op : AdminOp) (req : Request) : option jsstring :=
  match op with
  | VerifyAdminOp | BanUserOp => z_string (field (body req) "idToken")
  | ListUsersOp | CreateLicenseOp => bearer_token req
  end.

(** The subject the identity provider reports for that token. *)
Definition subject (env : Env) (op : AdminOp) (req : Request) : option jsstring :=
  tok ← presented_token op req; verifyIdToken ← adminAuth env; verifyIdToken tok.


Definition is_upper_alnum (c : N) : bool := is_digit c || is_upper c.

(** One or more digits, a hyphen, then a suffix accepted by [k]. *)
Fixpoint digits_then (k : jsstring -> bool) (seen : bool) (s : jsstring) : bool :=
  match s with
  | [] => false
  | c :: s' =>
      if is_digit c then digits_then k true s'
      else seen && (c =? 45)%N && k s'
  end.

(** [/^LIC-[0-9]+-[A-Z0-9]{lo,hi}$/] *)
Definition key_format (lo hi : nat) (k : jsstring) : bool :=
  match k with
  | 76%N :: 73%N :: 67%N :: 45%N :: rest =>
      digits_then
        (fun sfx => forallb is_upper_alnum sfx
                    && (lo <=? length sfx)%nat && (length sfx <=? hi)%nat)
        false rest
  | _ => false
  end.

(** The properties of a user object, and the stored fields among them. *)
Definition projected_fields : list string :=
  ["uid"; "email"; "displayName"; "isAdmin"; "plan"; "createdAt"].
Definition stored_fields_shown : list string :=
  ["email"; "displayName"; "isAdmin"; "plan"; "createdAt"].

(** [res.json] sends the [JSON.stringify] text of its argument.  In an
    object, a property whose value is undefined is left out; NaN and the
    infinities are written as null; the other values, nested objects
    included, are written as they are. *)
Definition defined (v : jsval) : bool :=
  match v with JUndefined => false | _ => true end.

Definition json_value (v : jsval) : jsval :=
  match v with JNaN | JInf _ => JNull | _ => v end.

Definition json_object (o : list (string * jsval)) : list (string * jsval) :=
  (fun p => (p.1, json_value p.2)) <$> List.filter (fun p => defined p.2) o.

(** The payload as the client receives it. *)
Definition res_json (p : Payload) : Payload :=
  match p with
  | UserList userViews => UserList (json_object <$> userViews)
  | _ => p
  end.


Arguments lit : simpl never.
Arguments decimal : simpl never.
Arguments toString36 : simpl never.
Arguments substr : simpl never.
Arguments toUpperCase : simpl never.
Arguments new_Date : simpl never.

(** ** Client-side security helpers ([client/lib/security.ts]) *)

(** [/[\x00-\x08\x0B\x0C\x0E-\x1F\x7F]/] *)
Definition is_control (c : N) : bool :=
  (in_range 0 8 c || (c =? 11) || (c =? 12) || in_range 14 31 c || (c =? 127))%N.

Definition is_null (c : N) : bool := (c =? 0)%N.

(** A pattern tried at every position of the text. *)
Fixpoint anywhere (p : jsstring -> bool) (s : jsstring) : bool :=
  p s || match s with [] => false | _ :: s' => anywhere p s' end.

(** A literal matched at the head of the text under the [i] flag; the rest
    of the text after it. *)
Fixpoint strip_ci (p s : jsstring) : option jsstring :=
  match p, s with
  | [], _ => Some s
  | _ :: _, [] => None
  | a :: p', b :: s' => if (upper a =? upper b)%N then strip_ci p' s' else None
  end.

Definition one_of (cs : list N) (c : N) : bool := existsb (N.eqb c) cs.

Definition sql_keywords : list jsstring :=
  lit <$> ["SELECT"; "INSERT"; "UPDATE"; "DELETE"; "DROP"; "CREATE"; "ALTER";
           "EXEC"; "EXECUTE"; "UNION"; "WHERE"; "OR"; "AND"].

Definition word_next (s : jsstring) : bool :=
  match s with c :: _ => is_word c | [] => false end.

(** [/(\b(SELECT|...|AND)\b)/i]: a keyword that neither follows nor precedes
    a word character; [prev] tells whether the previous character is one. *)
Fixpoint sql_scan (prev : bool) (s : jsstring) : bool :=
  (negb prev
   && existsb (fun kw => match strip_ci kw s with
                         | Some rest => negb (word_next rest)
                         | None => false
                         end) sql_keywords)
  || match s with
     | [] => false
     | c :: s' => sql_scan (is_word c) s'
     end.

(** [/<script[^>]*>/i] at the head of the text. *)
Definition script_tag (s : jsstring) : bool :=
  match strip_ci (lit "<script") s with
  | Some rest => existsb (N.eqb 62) rest
  | None => false
  end.

Definition suspiciousPatterns : list (jsstring -> bool) :=
  [ sql_scan false;
    existsb (one_of [123; 125; 36; 91; 93]%N);              (* { } $ [ ] *)
    anywhere script_tag;
    anywhere (fun s => bool_decide (is_Some (strip_ci (lit "javascript:") s)));
    existsb (one_of [59; 38; 124; 96; 36; 40; 41]%N);       (* ; & | ` $ ( ) *)
    anywhere (starts_with [46; 46; 47]%N);                  (* ../ *)
    anywhere (starts_with [46; 46; 92]%N) ].                (* ..\ *)

Definition detectInjectionAttempt (input : jsstring) : bool :=
  match input with
  | [] => false
  | _ => existsb (fun pattern => pattern input) suspiciousPatterns
  end.

(** [/^[a-zA-Z0-9]{20,40}$/] *)
Definition validateUserId (userId : jsstring) : bool :=
  match userId with
  | [] => false
  | _ => forallb is_alnum userId
         && (20 <=? length userId)%nat && (length userId <=? 40)%nat
  end.

(** [/^[a-zA-Z0-9\-_]{1,255}$/] *)
Definition validateConversationId (conversationId : jsstring) : bool :=
  match conversationId with
  | [] => false
  | _ => forallb (fun c => is_alnum c || (c =? 45)%N || (c =? 95)%N) conversationId
         && (1 <=? length conversationId)%nat
         && (length conversationId <=? 255)%nat
  end.

Definition validateMessageContent (content : jsstring) : bool :=
  match content with
  | [] => false
  | _ =>
      let n := length (trim content) in
      if (n <? 1)%nat || (5000 <? n)%nat then false
      else if existsb is_null content then false
      else if existsb (fun line => (1000 <? length line)%nat)
                (split [10%N] content) then false
      else true
  end.

Record SecureMessage := mkSecureMessage {
  conversationId : jsstring;
  messageUserId : jsstring;                 (* the field [userId] *)
  content : jsstring;
  sanitizedContent : jsstring
}.

Section Sanitizer.

(** [DOMPurify.sanitize(_, { ALLOWED_TAGS: [], ALLOWED_ATTR: [] })], an
    external library. *)
Variable purify : jsstring -> jsstring.

Definition sanitizeInput (input : jsstring) : jsstring :=
  match input with
  | [] => []
  | _ =>
      let sanitized := trim input in
      let sanitized := List.filter (fun c => negb (is_null c)) sanitized in
      let sanitized := List.filter (fun c => negb (is_control c)) sanitized in
      purify sanitized
  end.

Definition createSecureMessage (conversationId userId content : jsstring)
  : option SecureMessage :=
  if negb (validateConversationId conversationId) then None
  else if negb (validateUserId userId) then None
  else if negb (validateMessageContent content) then None
  else if detectInjectionAttempt content then None
  else
    let sanitizedContent := sanitizeInput content in
    Some (mkSecureMessage conversationId userId sanitizedContent sanitizedContent).

End Sanitizer.

(** A stand-in for the external sanitizer in concrete runs: it deletes
    [<...>] tags and, like the library, returns text without [<] as it is. *)
Fixpoint stripTags_go (in_tag : bool) (s : jsstring) : jsstring :=
  match s with
  | [] => []
  | c :: s' =>
      if in_tag then stripTags_go (negb (c =? 62)%N) s'
      else if (c =? 60)%N then stripTags_go true s'
      else c :: stripTags_go false s'
  end.

Definition stripTags : jsstring -> jsstring := stripTags_go false.

(** ** The rate limiter *)

Record RateLimiter := mkRateLimiter {
  rl_key : jsstring;
  maxRequests : Z;
  windowMs : Z
}.

(** The constructor. *)
Definition new_RateLimiter (key : jsstring) (maxRequests windowMs : Z)
  : RateLimiter :=
  mkRateLimiter (lit "ratelimit_" ++ key) maxRequests windowMs.

(** An item of [localStorage]: the JSON text of a counter, the empty text,
    or text that [JSON.parse] rejects. *)
Inductive Item :=
| Counter (count resetAt : Z)
| EmptyText
| Unparsable.

(** [isAllowed] at clock reading [now].  The storage is [None] when it is
    inaccessible (every access throws, and the limiter allows the action). *)
Definition isAllowed (rl : RateLimiter) (now : Z)
    (localStorage : option (gmap jsstring Item))
  : bool * option (gmap jsstring Item) :=
  match localStorage with
  | None => (true, None)
  | Some items =>
      let fresh := <[rl_key rl := Counter 1 (now + windowMs rl)]> items in
      match items !! rl_key rl with
      | None | Some EmptyText => (true, Some fresh)
      | Some Unparsable => (true, Some items)
      | Some (Counter count resetAt) =>
          if resetAt <? now then (true, Some fresh)
          else if maxRequests rl <=? count then (false, Some items)
          else (true, Some (<[rl_key rl := Counter (count + 1) resetAt]> items))
      end
  end.

Definition reset (rl : RateLimiter) (localStorage : option (gmap jsstring Item))
  : option (gmap jsstring Item) :=
  delete (rl_key rl) <$> localStorage.

(** Successive calls at the given clock readings. *)
Fixpoint calls (rl : RateLimiter) (times : list Z)
    (localStorage : option (gmap jsstring Item))
  : list bool * option (gmap jsstring Item) :=
  match times with
  | [] => ([], localStorage)
  | t :: times' =>
      let r := isAllowed rl t localStorage in
      let rs := calls rl times' r.2 in
      (r.1 :: rs.1, rs.2)
  end.

(** ** Concrete instances *)

Definition sample_admin : gmap string jsval :=
  {[ "isAdmin" := JBool true; "email" := JStr (lit "root@example.org") ]}.

Definition sample_user : gmap string jsval :=
  {[ "isAdmin" := JBool false; "email" := JStr (lit "user@example.org");
     "plan" := JStr (lit "Free"); "passwordHash" := JStr (lit "s3cr3t") ]}.

Definition sample_store : Store :=
  mkStore {[ lit "admin00001" := sample_admin; lit "user000001" := sample_user ]}
          [] ∅.

Definition sample_verifyIdToken (t : jsstring) : option jsstring :=
  if decide (t = lit "token.of.admin") then Some (lit "admin00001")
  else if decide (t = lit "token.of.user") then Some (lit "user000001")
  else if decide (t = lit "token.of.ghost") then Some (lit "ghost00001")
  else None.

(** The clock advances by one millisecond per reading; the random number is
    0.5, whose radix-36 rendering is "0.i". *)
Definition sample_env : Env :=
  mkEnv (Some sample_verifyIdToken) (fun k => 1000 + Z.of_nat k)
        (fun _ => [18%nat]) (fun _ => false).

(** The same environment when the credential is absent. *)
Definition sample_env_uninitialised : Env :=
  mkEnv (initialise None (fun _ => Some sample_verifyIdToken))
        (fun k => 1000 + Z.of_nat k) (fun _ => [18%nat]) (fun _ => false).

Definition sample_world : World := mkWorld sample_store [] 0 0.

Definition ban_request (token target : string) (seconds : Z) : Request :=
  mkRequest None
    {[ "idToken" := JStr (lit token); "userId" := JStr (lit target);
       "reason" := JStr (lit "spamming the channel");
       "duration" := JNum seconds 1 ]}.

Definition license_request (token : string) : Request :=
  mkRequest (Some (lit "Bearer " ++ lit token))
    {[ "plan" := JStr (lit "Pro"); "validityDays" := JNum 30 1 ]}.

(** A record whose [isAdmin] field holds the text "false" instead of a
    boolean, and a store in which it is the record of [ghost00001]. *)
Definition sample_user_text_flag : gmap string jsval :=
  {[ "isAdmin" := JStr (lit "false"); "email" := JStr (lit "ghost@example.org") ]}.

Definition sample_world_text_flag : World :=
  mkWorld
    (mkStore {[ lit "ghost00001" := sample_user_text_flag;
                lit "user000001" := sample_user ]} [] ∅)
    [] 0 0.

(** A record with all five listed fields and one more, and a store that
    holds it beside the record of the admin. *)
Definition sample_member : gmap string jsval :=
  {[ "email" := JStr (lit "member@example.org");
     "displayName" := JStr (lit "Member");
     "isAdmin" := JBool false;
     "plan" := JStr (lit "Pro");
     "createdAt" := JObject (lit "Timestamp(1700000000, 0)");
     "passwordHash" := JStr (lit "s3cr3t") ]}.

Definition sample_world_members : World :=
  mkWorld
    (mkStore {[ lit "admin00001" := sample_admin;
                lit "member0001" := sample_member ]} [] ∅)
    [] 0 0.

(** ** Further definitions of the route files *)

(** [CreateLicenseSchema] of the strict route file (declared there; the
    handler validates with the inline schema). *)
Record CreateLicenseInput := mkCreateLicenseInput {
  lic_idToken : jsstring;
  lic_plan : Plan;
  lic_validityDays : Z
}.

Definition CreateLicenseSchema (body : gmap string jsval)
  : option CreateLicenseInput :=
  t ← idToken_schema strict (field body "idToken");
  p ← z_plan (field body "plan");
  n ← z_int (field body "validityDays");
  guard ((1 <=? n) && (n <=? 3650));;
  Some (mkCreateLicenseInput t p n).

(** The same request handled twice in a row. *)
Definition twice (h : Request -> World -> Response * World) (req : Request)
    (w : World) : Response * Response * World :=
  let r1 := h req w in
  let r2 := h req r1.2 in
  (r1.1, r2.1, r2.2).

(** ** Further helpers of [client/lib/security.ts] *)

(** The text up to the first occurrence of [c], and the text after it. *)
Fixpoint break_at (c : N) (s : jsstring) : option (jsstring * jsstring) :=
  match s with
  | [] => None
  | a :: s' =>
      if (a =? c)%N then Some ([], s')
      else '(l, r) ← break_at c s'; Some (a :: l, r)
  end.

(** [[a-zA-Z0-9.!#$%&'*+\/=?^_`{|}~-]] *)
Definition email_local_char (c : N) : bool :=
  is_alnum c
  || one_of [46; 33; 35; 36; 37; 38; 39; 42; 43; 47; 61; 63; 94; 95; 96;
             123; 124; 125; 126; 45]%N c.

(** [[a-zA-Z0-9](?:[a-zA-Z0-9-]{0,61}[a-zA-Z0-9])?] as a whole label. *)
Definition is_label (l : jsstring) : bool :=
  match l with
  | [] => false
  | c :: _ =>
      is_alnum c && is_alnum (List.last l c)
      && forallb (fun a => is_alnum a || (a =? 45)%N) l
      && (length l <=? 63)%nat
  end.

(** The e-mail pattern: a local part, [@], labels separated by dots. *)
Definition validateEmail (email : jsstring) : bool :=
  match break_at 64 email with
  | None => false
  | Some (local, domain) =>
      match local with
      | [] => false
      | _ => forallb email_local_char local
             && forallb is_label (split [46%N] domain)
      end
  end.

(** [[a-zA-Z0-9\s\-_.àâäéèêëïîôöùûüçœæ]] *)
Definition title_char (c : N) : bool :=
  is_alnum c || is_whitespace c
  || one_of [45; 95; 46; 224; 226; 228; 233; 232; 234; 235; 239; 238; 244;
             246; 249; 251; 252; 231; 339; 230]%N c.

Definition validateConversationTitle (title : jsstring) : bool :=
  match title with
  | [] => false
  | _ =>
      let n := length (trim title) in
      if (n <? 1)%nat || (255 <? n)%nat then false
      else if existsb is_null title then false
      else forallb title_char title
           && (1 <=? length title)%nat && (length title <=? 255)%nat
  end.

Record SecureConversation := mkSecureConversation {
  conversationUserId : jsstring;            (* the field [userId] *)
  title : jsstring;
  sanitizedTitle : jsstring
}.

Definition createSecureConversation (purify : jsstring -> jsstring)
    (userId title : jsstring) : option SecureConversation :=
  if negb (validateUserId userId) then None
  else if negb (validateConversationTitle title) then None
  else if detectInjectionAttempt title then None
  else
    let sanitizedTitle := sanitizeInput purify title in
    Some (mkSecureConversation userId sanitizedTitle sanitizedTitle).

(** *** CSRF token helpers *)

Definition hex_digit (d : N) : N :=
  if (d <? 10)%N then (48 + d)%N else (87 + d)%N.

(** [byte.toString(16)] for the value of a byte. *)
Definition toString16 (n : N) : jsstring :=
  if (n <? 16)%N then [hex_digit n]
  else [hex_digit (n / 16); hex_digit (n mod 16)]%N.

(** [s.padStart(n, "0")] *)
Definition padStart0 (n : nat) (s : jsstring) : jsstring :=
  replicate (n - length s) 48%N ++ s.

(** [generateCSRFToken]: [random_byte i] is the i-th element of the array
    after [crypto.getRandomValues] has filled it. *)
Definition generateCSRFToken (random_byte : nat -> Byte.byte) : jsstring :=
  let array := random_byte <$> seq 0 32 in
  mjoin ((fun b => padStart0 2 (toString16 (Byte.to_N b))) <$> array).

(** [sessionStorage]: item name to text. *)
Definition storeCSRFToken (token : jsstring) (sessionStorage : gmap string jsstring)
  : gmap string jsstring :=
  <["csrf_token" := token]> sessionStorage.

Definition getCSRFToken (sessionStorage : gmap string jsstring)
  : option jsstring :=
  sessionStorage !! "csrf_token".

Definition validateCSRFToken (token : jsstring)
    (sessionStorage : gmap string jsstring) : bool :=
  match getCSRFToken sessionStorage with
  | Some stored => bool_decide (stored = token)
  | None => false
  end.

(** The value of a hexadecimal digit, and the bytes a hexadecimal text
    spells, two digits each. *)
Definition hex_value (c : N) : N :=
  if is_digit c then (c - 48)%N else (c - 87)%N.

Fixpoint unhex (s : jsstring) : list N :=
  match s with
  | a :: b :: s' => (hex_value a * 16 + hex_value b)%N :: unhex s'
  | _ => []
  end.

Definition is_hex (c : N) : bool := is_digit c || in_range 97 102 c.

(** ** Notions used in further statements *)

(** The characters on which the second and the fifth injection pattern
    fire. *)
Definition flagged_char (c : N) : bool :=
  one_of [123; 125; 36; 91; 93]%N c || one_of [59; 38; 124; 96; 36; 40; 41]%N c.

(** A keyword of the first injection pattern, in any case. *)
Definition is_sql_keyword (kw : jsstring) : Prop :=
  toUpperCase kw ∈ sql_keywords.

(** The text ends with a character that is not a word character, or is
    empty. *)
Definition ends_off_word (s : jsstring) : bool :=
  match List.rev s with c :: _ => negb (is_word c) | [] => true end.

(** [pieces.join(c)] for a one-character separator. *)
Fixpoint join (c : N) (pieces : list jsstring) : jsstring :=
  match pieces with
  | [] => []
  | p :: ps => match ps with [] => p | _ => p ++ c :: join c ps end
  end.

(** The characters an accepted e-mail address is made of. *)
Definition email_char (c : N) : bool := email_local_char c || (c =? 64)%N.

(** The stored count of a limiter, when its item is a counter. *)
Definition stored_count (rl : RateLimiter)
    (localStorage : option (gmap jsstring Item)) : option Z :=
  items ← localStorage;
  match items !! rl_key rl with
  | Some (Counter c _) => Some c
  | _ => None
  end.

(** ** Further concrete instances *)

(** An environment in which requests are handled within one millisecond:
    every clock reading is 1000, the random number is 0.5. *)
Definition sample_env_same_ms : Env :=
  mkEnv (Some sample_verifyIdToken) (fun _ => 1000)
        (fun _ => [18%nat]) (fun _ => false).

Definition sample_limiter : RateLimiter := new_RateLimiter (lit "send") 3 60000.

(** The storage after the limiter has allowed its three requests. *)
Definition sample_storage_full : option (gmap jsstring Item) :=
  (calls sample_limiter [1000; 1001; 1002] (Some ∅)).2.

(** * Properties of the admin routes *)

Section AdminFacts.
Variable env : Env.

Lemma filter_write_read (l : list DbOp) o :
  is_write o = false -> List.filter is_write (l ++ [o]) = List.filter is_write l.
Proof.
  intros Ho. rewrite List.filter_app; simpl. rewrite Ho. apply app_nil_r.
Qed.

Lemma writes_issue_read w o :
  is_write o = false -> writes (issue o w) = writes w.
Proof.
  intros Ho. unfold writes, issue; simpl.
  rewrite List.filter_app; simpl. rewrite Ho. apply app_nil_r.
Qed.

(** What [verifyAdmin] does, case by case. *)
Lemma verifyAdmin_returns tok w :
  match verifyAdmin env tok w with
  | (Returned uid, w') =>
      (exists v, adminAuth env = Some v /\ v tok = Some uid)
      /\ is_admin (store w) uid = true
      /\ w' = issue (DocGet "users" uid) w
  | (Threw e, w') =>
      store w' = store w /\ writes w' = writes w
      /\ ticks w' = ticks w /\ draws w' = draws w
      /\ (adminAuth env = None -> w' = w)
      /\ (forall v uid, adminAuth env = Some v -> v tok = Some uid ->
          is_admin (store w) uid = false)
  end.
Proof.
  unfold verifyAdmin, is_admin.
  destruct (adminAuth env) as [v|] eqn:Hauth; [|cbn; repeat split; congruence].
  destruct (v tok) as [uid|] eqn:Hv; [|cbn; repeat split; congruence].
  cbn. destruct (users (store w) !! uid) as [data|] eqn:Hdoc; cbn;
    [destruct (truthy (field data "isAdmin")) eqn:Hflag; cbn|].
  - rewrite Hdoc. eauto 6.
  - repeat split; try congruence; [by apply (writes_issue_read w)|].
    intros v' uid' [= <-] Hv'. rewrite Hv in Hv'. injection Hv' as <-.
    by rewrite Hdoc.
  - repeat split; try congruence; [by apply (writes_issue_read w)|].
    intros v' uid' [= <-] Hv'. rewrite Hv in Hv'. injection Hv' as <-.
    by rewrite Hdoc.
Qed.

Lemma idToken_schema_string v x s :
  idToken_schema v x = Some s -> z_string x = Some s.
Proof.
  unfold idToken_schema. destruct (z_string x) as [s'|]; [|done]. cbn.
  destruct v; cbn; destruct (guard _); cbn; congruence.
Qed.

Lemma BanUserSchema_token v uuid b input :
  BanUserSchema v uuid b = Some input ->
  z_string (field b "idToken") = Some (ban_idToken input).
Proof.
  unfold BanUserSchema. intros H.
  destruct (idToken_schema v (field b "idToken")) as [t|] eqn:Ht; [|done].
  apply idToken_schema_string in Ht. rewrite Ht. cbn in H.
  destruct (userId_schema _ _ _); [|done]. cbn in H.
  destruct (reason_schema _ _); [|done]. cbn in H.
  destruct (duration_schema _ _); [|done]. cbn in H.
  by injection H as <-.
Qed.

Lemma header_token_returns req w :
  match header_token req w with
  | (Returned tok, w') => bearer_token req = Some tok /\ w' = w
  | (Threw _, w') => w' = w /\ forall c t, bearer_token req <> Some (c :: t)
  end.
Proof.
  unfold header_token. destruct (bearer_token req) as [[|c t]|]; cbn; auto.
Qed.

(** The token handed to [verifyAdmin] is the one the request presents, so
    a rejected subject stops every operation at [verifyAdmin]. *)
Lemma verifyAdmin_stops_non_admin op schemas req w :
  (forall uid, subject env op req = Some uid -> is_admin (store w) uid = false) ->
  let r := handle op env schemas req w in
  is_error r.1 = true /\ store r.2 = store w /\ writes r.2 = writes w.
Proof.
  intros Hsubj.
  assert (Hcheck : forall tok, presented_token op req = Some tok ->
            match verifyAdmin env tok w with
            | (Returned _, _) => False
            | (Threw _, w') => store w' = store w /\ writes w' = writes w
            end).
  { intros tok Htok. pose proof (verifyAdmin_returns tok w) as Hv.
    destruct (verifyAdmin env tok w) as [[uid|e] w'].
    - destruct Hv as ([v [Hauth Hvt]] & Hadm & _).
      rewrite Hsubj in Hadm; [done|].
      unfold subject. rewrite Htok. cbn. rewrite Hauth. cbn. done.
    - tauto. }
  destruct op; cbn; unfold handleVerifyAdmin, handleBanUser,
    handleGetAllUsers, handleCreateLicense, try_catch, bind.
  - destruct (VerifyAdminSchema schemas (body req)) as [tok|] eqn:Hp; cbn; [|done].
    apply idToken_schema_string in Hp. specialize (Hcheck tok Hp).
    by destruct (verifyAdmin env tok w) as [[uid|e] w'].
  - destruct (BanUserSchema schemas (zod_uuid env) (body req)) as [input|] eqn:Hp;
      cbn; [|done].
    apply BanUserSchema_token in Hp. specialize (Hcheck _ Hp).
    by destruct (verifyAdmin env (ban_idToken input) w) as [[uid|e] w'].
  - pose proof (header_token_returns req w) as Hh.
    destruct (header_token req w) as [[tok|e] w1]; [|by destruct Hh as [-> _]].
    destruct Hh as [Hh ->]. specialize (Hcheck _ Hh).
    by destruct (verifyAdmin env tok w) as [[uid|e] w'].
  - pose proof (header_token_returns req w) as Hh.
    destruct (header_token req w) as [[tok|e] w1]; [|by destruct Hh as [-> _]].
    destruct Hh as [Hh ->]. specialize (Hcheck _ Hh).
    by destruct (verifyAdmin env tok w) as [[uid|e] w'].
Qed.

(** C1, as the code has it.  For each of the four admin operations: when
    the subject of the presented bearer token has no user record, or has one
    whose administrative-privilege flag is falsy (the test [!data?.isAdmin]
    of [verifyAdmin]: a flag that is absent, undefined, null, false, 0, NaN
    or the empty text), the operation answers with an error response, leaves
    the record store as it was and issues no write to it.  A flag that is
    not true but truthy is not covered: it passes the check. *)
Theorem non_admin_is_refused op schemas req w uid :
  subject env op req = Some uid ->
  (users (store w) !! uid = None
   \/ exists data, users (store w) !! uid = Some data
                   /\ truthy (field data "isAdmin") = false) ->
  let r := handle op env schemas req w in
  is_error r.1 = true /\ store r.2 = store w /\ writes r.2 = writes w.
Proof.
  intros Hs Hrec. apply verifyAdmin_stops_non_admin. intros uid' Hs'.
  rewrite Hs in Hs'. injection Hs' as <-. unfold is_admin.
  destruct Hrec as [-> | (data & -> & Hflag)]; done.
Qed.

(** C2.  Without the service-account credential the SDK handles stay
    undefined; every admin operation then answers with an error response
    and the world is untouched: no read and no write reaches the store. *)
Theorem uninitialised_fails_closed connect op schemas req w :
  adminAuth env = initialise None connect ->
  let r := handle op env schemas req w in
  is_error r.1 = true /\ oplog r.2 = oplog w /\ store r.2 = store w.
Proof.
  cbn. intros Hnone.
  assert (Hcheck : forall tok, exists e, verifyAdmin env tok w = (Threw e, w)).
  { intros tok. unfold verifyAdmin. rewrite Hnone. by eexists. }
  destruct op; cbn; unfold handleVerifyAdmin, handleBanUser,
    handleGetAllUsers, handleCreateLicense, try_catch, bind.
  - destruct (VerifyAdminSchema schemas (body req)) as [tok|]; cbn; [|done].
    by destruct (Hcheck tok) as [e ->].
  - destruct (BanUserSchema schemas (zod_uuid env) (body req)) as [input|];
      cbn; [|done].
    by destruct (Hcheck (ban_idToken input)) as [e ->].
  - pose proof (header_token_returns req w) as Hh.
    destruct (header_token req w) as [[tok|e] w1]; [|by destruct Hh as [-> _]].
    destruct Hh as [_ ->]. by destruct (Hcheck tok) as [e ->].
  - pose proof (header_token_returns req w) as Hh.
    destruct (header_token req w) as [[tok|e] w1]; [|by destruct Hh as [-> _]].
    destruct Hh as [_ ->]. by destruct (Hcheck tok) as [e ->].
Qed.

Lemma verifyAdmin_admits tok w v uid :
  adminAuth env = Some v -> v tok = Some uid ->
  is_admin (store w) uid = true ->
  verifyAdmin env tok w = (Returned uid, issue (DocGet "users" uid) w).
Proof.
  unfold verifyAdmin, is_admin. intros -> -> Hadm. cbn.
  destruct (users (store w) !! uid) as [data|]; [|done]. cbn.
  by rewrite Hadm.
Qed.



Lemma z_int_value x n :
  z_int x = Some n <-> exists d, x = JNum (n * Z.pos d) d.
Proof.
  split.
  - destruct x as [| |b|m d| |b|s|o]; cbn; try done.
    destruct (m mod Z.pos d =? 0) eqn:Hm; [|done]. intros [= <-].
    exists d. f_equal. apply Z.eqb_eq in Hm.
    pose proof (Z.div_mod m (Z.pos d)). lia.
  - intros [d ->]. cbn. rewrite Z.mod_mul by lia. cbn.
    by rewrite Z.div_mul by lia.
Qed.

Lemma BanUserSchema_duration v uuid b input :
  BanUserSchema v uuid b = Some input ->
  duration_schema v (field b "duration") = Some (ban_duration input).
Proof.
  unfold BanUserSchema. intros H.
  destruct (idToken_schema v (field b "idToken")); [|done]. cbn in H.
  destruct (userId_schema v uuid (field b "userId")); [|done]. cbn in H.
  destruct (reason_schema _ _); [|done]. cbn in H.
  destruct (duration_schema _ _); [|done]. cbn in H.
  by injection H as <-.
Qed.

Lemma duration_schema_range v x n :
  duration_schema v x = Some n ->
  (exists d, x = JNum (n * Z.pos d) d)
  /\ 1 <= n /\ (v = strict -> n <= 36500).
Proof.
  unfold duration_schema. destruct (z_int x) as [m|] eqn:Hz; [|done]. cbn.
  apply z_int_value in Hz.
  destruct v; cbn.
  - destruct (0 <? m) eqn:Hpos; cbn; [|done]. intros [= <-].
    apply Z.ltb_lt in Hpos. repeat split; [done|lia|done].
  - destruct (1 <=? m) eqn:Hlo; cbn; [|done].
    destruct (m <=? 36500) eqn:Hhi; cbn; [|done]. intros [= <-].
    apply Z.leb_le in Hlo, Hhi. repeat split; [done|lia|lia].
Qed.

(** C4, as the code has it.  When Ban User gets past validation,
    [verifyAdmin] and the target checks it answers success and appends exactly one ban
    record; [bannedAt] is the clock reading taken for [new Date()],
    [expiresAt] is built from a second reading, [Date.now()], plus
    duration × 1000 ms (a representable date for the strict schema's
    durations at any realistic clock).  The expiry equals
    bannedAt + duration × 1000 ms when the two readings coincide. *)
Theorem ban_record_expiry schemas req w input v adminUid data :
  BanUserSchema schemas (zod_uuid env) (body req) = Some input ->
  adminAuth env = Some v ->
  v (ban_idToken input) = Some adminUid ->
  is_admin (store w) adminUid = true ->
  users (store w) !! ban_userId input = Some data ->
  truthy (field data "isAdmin") = false ->
  let issued := clock env (ticks w) in
  let now := clock env (S (ticks w)) in
  let r := handleBanUser env schemas req w in
  exists b,
    r.1 = mkResponse 200 UserBanned
    /\ bans (store r.2) = bans (store w) ++ [b]
    /\ userId b = ban_userId input /\ bannedBy b = adminUid
    /\ bannedAt b = issued
    /\ duration b = ban_duration input
    /\ expiresAt b = new_Date (now + duration b * 1000)
    /\ (schemas = strict -> 0 <= now <= 8640000000000000 - 36500000 ->
        expiresAt b = Some (now + duration b * 1000))
    /\ (now = issued ->
        Z.abs (issued + duration b * 1000) <= 8640000000000000 ->
        expiresAt b = Some (bannedAt b + duration b * 1000)).
Proof.
  intros Hp Hauth Hv Hadm Hdoc Hflag issued now.
  unfold handleBanUser, try_catch, bind. rewrite Hp. cbn.
  rewrite (verifyAdmin_admits _ _ _ _ Hauth Hv Hadm). cbn.
  rewrite Hdoc. cbn. rewrite Hflag. cbn.
  eexists. repeat split; cbn; fold issued now.
  - intros Hstrict Hnow.
    apply BanUserSchema_duration, duration_schema_range in Hp.
    destruct Hp as (_ & Hlo & Hhi). specialize (Hhi Hstrict).
    unfold new_Date. rewrite (proj2 (Z.leb_le _ _)); [done|lia].
  - intros -> Hrange.
    unfold new_Date. by rewrite (proj2 (Z.leb_le _ _) Hrange).
Qed.


(** *** License keys *)

Lemma uint_digits_are_digits u : forallb is_digit (uint_digits u) = true.
Proof. induction u; cbn; auto. Qed.

Lemma uint_digits_nonempty u : u <> Nil -> uint_digits u <> [].
Proof. by destruct u. Qed.

Lemma decimal_shape z :
  0 <= z -> decimal z <> [] /\ forallb is_digit (decimal z) = true.
Proof.
  destruct z as [|p|p]; cbn; [done| |lia]. intros _. split.
  - apply uint_digits_nonempty, DecimalPos.Unsigned.to_uint_nonnil.
  - apply uint_digits_are_digits.
Qed.

Lemma digits_then_app k seen ds sfx :
  forallb is_digit ds = true ->
  seen = true \/ ds <> [] ->
  digits_then k seen (ds ++ 45%N :: sfx) = k sfx.
Proof.
  revert seen. induction ds as [|c ds IH]; intros seen Hds Hseen; cbn.
  - destruct Hseen as [-> | ?]; done.
  - cbn in Hds. apply andb_true_iff in Hds as [-> Hds]. apply IH; auto.
Qed.

Lemma digit36_upper d : is_upper_alnum (upper (digit36 d)) = true.
Proof.
  unfold digit36. pose proof (Nat.mod_upper_bound d 36 ltac:(done)) as Hk.
  generalize dependent (d mod 36)%nat. intros k Hk.
  do 36 (destruct k as [|k]; [reflexivity|]). lia.
Qed.

Lemma suffix_of_random frac :
  toUpperCase (substr 2 9 (toString36 frac))
  = upper <$> (digit36 <$> take 9 frac).
Proof.
  unfold toUpperCase, substr, toString36.
  destruct frac as [|d frac]; [done|]. cbn [drop].
  unfold drop. f_equal. by rewrite fmap_take.
Qed.

Lemma suffix_upper_alnum frac :
  forallb is_upper_alnum (upper <$> (digit36 <$> take 9 frac)) = true.
Proof.
  induction (take 9 frac) as [|d l IH]; cbn; [done|].
  by rewrite digit36_upper.
Qed.

Lemma license_key_format now frac :
  0 <= now ->
  let k := lit "LIC-" ++ decimal now ++ lit "-"
           ++ toUpperCase (substr 2 9 (toString36 frac)) in
  key_format 0 9 k = true
  /\ key_format 9 9 k = (9 <=? length frac)%nat.
Proof.
  intros Hnow. cbn zeta. rewrite suffix_of_random.
  destruct (decimal_shape now Hnow) as [Hne Hdig].
  change (lit "LIC-" ++ ?x) with (76 :: 73 :: 67 :: 45 :: x)%N.
  change (lit "-" ++ ?x) with (45%N :: x).
  unfold key_format. rewrite !digits_then_app by auto.
  rewrite suffix_upper_alnum, !length_fmap, length_take. cbn [andb].
  split.
  - apply Nat.leb_le. lia.
  - destruct (9 <=? length frac)%nat eqn:Hfrac.
    + apply Nat.leb_le in Hfrac.
      apply andb_true_iff. split; apply Nat.leb_le; lia.
    + apply Nat.leb_gt in Hfrac.
      apply andb_false_iff. left. apply Nat.leb_gt. lia.
Qed.

(** C6, as the code has it.  Create License either answers with an error
    and leaves the store alone, or writes exactly one license record,
    keyed by its own key, with used = false, usedBy = null, usedAt = null;
    a request with a bearer token of an admin and a valid payload takes
    the second branch.  The key is LIC-, the decimal clock reading, a
    hyphen, and the first nine fractional radix-36 digits of the random
    number in upper case: at most nine upper-case alphanumerics, exactly
    nine only when the number has that many digits. *)
Theorem create_license_record req w :
  0 <= clock env (ticks w) ->
  let r := handleCreateLicense env req w in
  let frac := random36 env (draws w) in
  ((is_error r.1 = true /\ store r.2 = store w)
   \/ exists rec,
        r.1 = mkResponse 200 (LicenseCreated (key rec))
        /\ store r.2 = mkStore (users (store w)) (bans (store w))
                         (<[key rec := rec]> (licenses (store w)))
        /\ used rec = false /\ usedBy rec = None /\ usedAt rec = None
        /\ key rec = lit "LIC-" ++ decimal (clock env (ticks w)) ++ lit "-"
                     ++ toUpperCase (substr 2 9 (toString36 frac))
        /\ key_format 0 9 (key rec) = true
        /\ key_format 9 9 (key rec) = (9 <=? length frac)%nat)
  /\ (forall c tok v uid input,
        bearer_token req = Some (c :: tok) ->
        adminAuth env = Some v -> v (c :: tok) = Some uid ->
        is_admin (store w) uid = true ->
        license_schema (body req) = Some input ->
        is_error r.1 = false).
Proof.
  intros Hnow r frac. subst r.
  unfold handleCreateLicense, try_catch, bind.
  pose proof (header_token_returns req w) as Hh.
  destruct (header_token req w) as [[tok|e] w1];
    [destruct Hh as [Hh ->]|destruct Hh as [-> Hh]].
  2:{ split; [by left|]. intros c tok v uid input Htok. by destruct (Hh c tok). }
  pose proof (verifyAdmin_returns tok w) as Hv.
  destruct (verifyAdmin env tok w) as [[uid|e] w1].
  2:{ destruct Hv as (Hs & _ & _ & _ & _ & Hrej). split; [by left|].
      intros c tok' v uid input Htok Hauth Hvt Hadm.
      rewrite Hh in Htok. injection Htok as ->.
      rewrite (Hrej v uid) in Hadm; done. }
  destruct Hv as (_ & _ & ->).
  destruct (license_schema (body req)) as [[p n]|] eqn:Hp; cbn.
  2:{ split; [by left|]. by intros. }
  split; [|by intros]. right.
  eexists (mkLicense _ _ _ _ _ _ _ _). cbn. repeat split.
  - exact (proj1 (license_key_format _ frac Hnow)).
  - exact (proj2 (license_key_format _ frac Hnow)).
Qed.

(** *** The user listing *)

Lemma user_view_fields doc : (user_view doc).*1 = projected_fields.
Proof. done. Qed.

Lemma user_view_depends_only_on_shown id (data data' : gmap string jsval) :
  (forall k, k ∈ stored_fields_shown -> data !! k = data' !! k) ->
  user_view (id, data) = user_view (id, data').
Proof.
  intros Hagree. unfold user_view, field; cbn.
  rewrite !(Hagree "email"), !(Hagree "displayName"), !(Hagree "isAdmin"),
    !(Hagree "plan"), !(Hagree "createdAt");
    [done|unfold stored_fields_shown; set_solver..].
Qed.

Lemma json_object_fields (data : gmap string jsval) (ks : list string) :
  json_object ((fun k => (k, field data k)) <$> ks)
  = (fun k => (k, json_value (field data k)))
      <$> List.filter (fun k => defined (field data k)) ks.
Proof.
  unfold json_object. induction ks as [|k ks IH]; [done|].
  cbn [fmap list_fmap List.filter fst snd] in *.
  destruct (defined (field data k)); cbn [fmap list_fmap fst snd];
    by rewrite IH.
Qed.

(** The object sent for a user: uid, then those of the five fields that the
    record has. *)
Lemma json_object_user_view id (data : gmap string jsval) :
  json_object (user_view (id, data))
  = ("uid", JStr id)
      :: ((fun k => (k, json_value (field data k)))
            <$> List.filter (fun k => defined (field data k)) stored_fields_shown).
Proof.
  rewrite <- json_object_fields. reflexivity.
Qed.

Lemma filter_keeps_all {A} (f : A -> bool) (l : list A) :
  (length (List.filter f l) <= length l)%nat
  /\ (length (List.filter f l) = length l <-> forallb f l = true).
Proof.
  induction l as [|a l [IHle IHeq]]; [done|]. cbn.
  destruct (f a); cbn; [|split; [lia|split; [lia|done]]].
  split; [lia|]. rewrite <- IHeq. split; lia.
Qed.

(** C7, as the code has it.  For a caller that is an admin, List Users
    answers 200 with one object per stored user record.  The object built
    for a record has the six properties uid, email, displayName, isAdmin,
    plan and createdAt, a field the record lacks being undefined; the JSON
    encoding of the response leaves the undefined ones out.  So the object
    sent for a record is uid (the document id) followed by those of the five
    fields that the record has, each with the encoding of its stored value:
    one to six properties, six exactly when the record has all five.
    Nothing else of a record reaches the response: records that agree on
    the five fields give the same object. *)
Theorem list_users_projection req w c tok v uid :
  bearer_token req = Some (c :: tok) ->
  adminAuth env = Some v -> v (c :: tok) = Some uid ->
  is_admin (store w) uid = true ->
  let r := handleGetAllUsers env req w in
  let views := user_view <$> map_to_list (users (store w)) in
  let sent := json_object <$> views in
  r.1 = mkResponse 200 (UserList views)
  /\ res_json (payload r.1) = UserList sent
  /\ store r.2 = store w
  /\ length sent = size (users (store w))
  /\ (forall id data, users (store w) !! id = Some data ->
        json_object (user_view (id, data)) ∈ sent)
  /\ (forall o, o ∈ sent ->
        exists id data,
          users (store w) !! id = Some data
          /\ o = ("uid", JStr id)
                 :: ((fun k => (k, json_value (field data k)))
                       <$> List.filter (fun k => defined (field data k))
                             stored_fields_shown)
          /\ (1 <= length o <= 6)%nat
          /\ (length o = 6%nat
              <-> forallb (fun k => defined (field data k)) stored_fields_shown
                  = true))
  /\ (forall id data data',
        (forall k, k ∈ stored_fields_shown -> data !! k = data' !! k) ->
        json_object (user_view (id, data)) = json_object (user_view (id, data'))).
Proof.
  intros Htok Hauth Hv Hadm r views sent. subst r.
  unfold handleGetAllUsers, try_catch, bind, header_token.
  rewrite Htok. cbn. rewrite (verifyAdmin_admits _ _ _ _ Hauth Hv Hadm). cbn.
  split; [done|]. split; [done|]. split; [done|]. subst sent views. split.
  { by rewrite !length_fmap, length_map_to_list. }
  split.
  { intros id data Hdoc.
    apply (list_elem_of_fmap_2 json_object _ (user_view (id, data))).
    apply (list_elem_of_fmap_2 user_view _ (id, data)).
    by apply elem_of_map_to_list. }
  split.
  2:{ intros id data data' Hagree.
      exact (f_equal json_object
               (user_view_depends_only_on_shown id data data' Hagree)). }
  intros o Hin. apply list_elem_of_fmap in Hin as (view & -> & Hin).
  apply list_elem_of_fmap in Hin as ([id data] & -> & Hin).
  exists id, data. split; [by apply elem_of_map_to_list|].
  rewrite json_object_user_view. split; [done|].
  cbn [length]. rewrite length_fmap.
  destruct (filter_keeps_all (fun k => defined (field data k))
              stored_fields_shown) as [Hle Heq].
  change (length stored_fields_shown) with 5%nat in *.
  split; [lia|]. rewrite <- Heq. lia.
Qed.

End AdminFacts.

Lemma non_admin_is_refused_witness :
  let r := handle BanUserOp sample_env strict
             (ban_request "token.of.user" "user000001" 60) sample_world in
  is_error r.1 = true /\ store r.2 = store sample_world
  /\ writes r.2 = writes sample_world.
Proof.
  apply (non_admin_is_refused sample_env BanUserOp strict
           (ban_request "token.of.user" "user000001" 60) sample_world
           (lit "user000001")).
  - vm_compute. reflexivity.
  - right. exists sample_user. split; vm_compute; reflexivity.
Defined.

(** C1, counterexample: the record of the caller holds the text "false" in
    its [isAdmin] field, which is not true but truthy.  The caller passes
    the admin check, the ban is answered with success and one record is
    written to the ban collection. *)
Lemma non_admin_counterexample :
  let r := handle BanUserOp sample_env original
             (ban_request "token.of.ghost" "user000001" 60)
             sample_world_text_flag in
  subject sample_env BanUserOp (ban_request "token.of.ghost" "user000001" 60)
  = Some (lit "ghost00001")
  /\ users (store sample_world_text_flag) !! lit "ghost00001"
     = Some sample_user_text_flag
  /\ field sample_user_text_flag "isAdmin" = JStr (lit "false")
  /\ field sample_user_text_flag "isAdmin" <> JBool true
  /\ r.1 = mkResponse 200 UserBanned
  /\ is_error r.1 = false
  /\ writes r.2 = [DocAdd "bans"]
  /\ length (bans (store r.2)) = 1%nat.
Proof.
  cbv zeta. split; [vm_compute; reflexivity|]. split; [vm_compute; reflexivity|].
  split; [vm_compute; reflexivity|]. split; [vm_compute; discriminate|].
  repeat split; vm_compute; reflexivity.
Defined.

Lemma uninitialised_fails_closed_witness :
  let r := handle CreateLicenseOp sample_env_uninitialised original
             (license_request "token.of.admin") sample_world in
  is_error r.1 = true /\ oplog r.2 = oplog sample_world
  /\ store r.2 = store sample_world.
Proof.
  apply (uninitialised_fails_closed sample_env_uninitialised
           (fun _ => Some sample_verifyIdToken) CreateLicenseOp
           original (license_request "token.of.admin") sample_world).
  reflexivity.
Defined.


Lemma ban_record_expiry_witness :
  exists b,
    (handleBanUser sample_env original
       (ban_request "token.of.admin" "user000001" 86400) sample_world).1
    = mkResponse 200 UserBanned
    /\ bans (store (handleBanUser sample_env original
         (ban_request "token.of.admin" "user000001" 86400) sample_world).2)
       = [b]
    /\ bannedAt b = 1000 /\ duration b = 86400
    /\ expiresAt b = Some (1001 + 86400000).
Proof.
  pose proof (ban_record_expiry sample_env original
                (ban_request "token.of.admin" "user000001" 86400) sample_world
                (mkBanUserInput (lit "token.of.admin") (lit "user000001")
                   (lit "spamming the channel") 86400)
                sample_verifyIdToken (lit "admin00001") sample_user
                ltac:(vm_compute; reflexivity) ltac:(reflexivity)
                ltac:(vm_compute; reflexivity) ltac:(vm_compute; reflexivity)
                ltac:(vm_compute; reflexivity) ltac:(vm_compute; reflexivity))
    as H.
  cbv zeta in H. destruct H as (b & Hr & Hb & _ & _ & Hat & Hd & He & _).
  exists b. rewrite Hr, Hb, Hat, He, Hd. repeat split.
Defined.

(** C4, counterexample: the clock ticks between [new Date()] and
    [Date.now()]; the record is issued at 1000 and expires at 1001 + 1000,
    one millisecond later than bannedAt + duration × 1000. *)
Lemma ban_expiry_counterexample :
  exists b,
    BanUserSchema strict (zod_uuid sample_env)
      (body (ban_request "token.of.admin" "user000001" 1))
    = Some (mkBanUserInput (lit "token.of.admin") (lit "user000001")
              (lit "spamming the channel") 1)
    /\ bans (store (handleBanUser sample_env strict
         (ban_request "token.of.admin" "user000001" 1) sample_world).2)
       = [b]
    /\ bannedAt b = 1000 /\ duration b = 1 /\ expiresAt b = Some 2001
    /\ expiresAt b <> Some (bannedAt b + duration b * 1000).
Proof.
  eexists. split; [vm_compute; reflexivity|].
  split; [vm_compute; reflexivity|]. cbn.
  repeat split. vm_compute. discriminate.
Defined.


Lemma create_license_record_witness :
  exists rec,
    (handleCreateLicense sample_env (license_request "token.of.admin")
       sample_world).1
    = mkResponse 200 (LicenseCreated (key rec))
    /\ used rec = false /\ usedBy rec = None /\ usedAt rec = None
    /\ key_format 0 9 (key rec) = true.
Proof.
  pose proof (create_license_record sample_env
                (license_request "token.of.admin") sample_world
                ltac:(vm_compute; discriminate)) as H.
  cbv zeta in H.
  destruct H as [[[Herr _] | (rec & Hr & _ & Hu & Hb & Ha & _ & Hk & _)] Hok];
    [|eauto 10].
  rewrite (Hok 116%N (lit "oken.of.admin") sample_verifyIdToken
             (lit "admin00001") (Pro, 30)) in Herr;
    [discriminate | vm_compute; reflexivity..].
Defined.

(** C6, counterexample: the random number is 0.5, rendered "0.i" in radix
    36; the key written is LIC-1000-I, with a one-character suffix. *)
Lemma license_key_counterexample :
  exists rec,
    licenses (store (handleCreateLicense sample_env
                       (license_request "token.of.admin") sample_world).2)
      !! lit "LIC-1000-I" = Some rec
    /\ key rec = lit "LIC-1000-I"
    /\ used rec = false
    /\ key_format 9 9 (key rec) = false.
Proof.
  eexists. split; [vm_compute; reflexivity|]. repeat split.
Defined.

Lemma list_users_projection_witness :
  let r := handleGetAllUsers sample_env (license_request "token.of.admin")
             sample_world in
  exists sent,
    res_json (payload r.1) = UserList sent /\ length sent = 2%nat
    /\ [("uid", JStr (lit "admin00001"));
        ("email", JStr (lit "root@example.org"));
        ("isAdmin", JBool true)] ∈ sent.
Proof.
  pose proof (list_users_projection sample_env
                (license_request "token.of.admin") sample_world
                116%N (lit "oken.of.admin") sample_verifyIdToken
                (lit "admin00001")
                ltac:(vm_compute; reflexivity) ltac:(reflexivity)
                ltac:(vm_compute; reflexivity) ltac:(vm_compute; reflexivity))
    as H.
  cbv zeta in H. destruct H as (_ & Hr & _ & Hlen & Hin & _).
  eexists. split; [exact Hr|]. split; [rewrite Hlen; vm_compute; reflexivity|].
  apply (Hin (lit "admin00001") sample_admin). vm_compute. reflexivity.
Defined.

(** C7, counterexample: a store with the record of the admin, which has
    two of the five fields, and a record that has all five and a
    [passwordHash].  The object sent for the first has three properties,
    the object sent for the second has six, the document id besides the
    five fields (and not the [passwordHash]); neither has exactly five. *)
Lemma list_users_counterexample :
  exists sent,
    res_json (payload (handleGetAllUsers sample_env
                         (license_request "token.of.admin")
                         sample_world_members).1) = UserList sent
    /\ length sent = 2%nat
    /\ Exists (fun o => o.*1 = ["uid"; "email"; "isAdmin"]) sent
    /\ Exists (fun o => o.*1 = projected_fields) sent
    /\ Forall (fun o => length o <> 5%nat) sent.
Proof.
  eexists. split; [vm_compute; reflexivity|]. split; [reflexivity|].
  split; [|split].
  - first [by apply Exists_cons_hd | by apply Exists_cons_tl, Exists_cons_hd].
  - first [by apply Exists_cons_hd | by apply Exists_cons_tl, Exists_cons_hd].
  - repeat constructor; discriminate.
Defined.

(** * Properties of the security helpers *)

Lemma trimStart_split s :
  exists p, s = p ++ trimStart s /\ forallb is_whitespace p = true.
Proof.
  induction s as [|c s IH]; [by exists []|]. cbn.
  destruct (is_whitespace c) eqn:Hc; [|by exists []].
  destruct IH as (p & Hp & Hws). exists (c :: p). cbn. rewrite Hc, Hws.
  split; [by f_equal|done].
Qed.

Lemma forallb_reverse (f : N -> bool) l : forallb f (rev l) = forallb f l.
Proof.
  induction l as [|a l IH]; cbn; [done|].
  rewrite forallb_app, IH. cbn. rewrite andb_true_r. apply andb_comm.
Qed.

Lemma trimStart_head s c s' :
  trimStart s = c :: s' -> is_whitespace c = false.
Proof.
  induction s as [|a s IH]; cbn; [done|].
  destruct (is_whitespace a) eqn:Ha; [done|]. by intros [= <- _].
Qed.

Lemma trimStart_fixed s :
  (forall c s', s = c :: s' -> is_whitespace c = false) -> trimStart s = s.
Proof. destruct s as [|c s]; cbn; [done|]. intros H. by rewrite (H c s). Qed.

Lemma trimEnd_split s :
  exists q, s = trimEnd s ++ q /\ forallb is_whitespace q = true.
Proof.
  unfold trimEnd. destruct (trimStart_split (rev s)) as (p & Hp & Hws).
  exists (rev p). split.
  - rewrite <- rev_app_distr, <- Hp. by rewrite rev_involutive.
  - by rewrite forallb_reverse.
Qed.

Lemma trimEnd_idempotent s : trimEnd (trimEnd s) = trimEnd s.
Proof.
  unfold trimEnd. rewrite rev_involutive. f_equal.
  apply trimStart_fixed. intros c s'. apply trimStart_head.
Qed.

Lemma trim_idempotent s : trim (trim s) = trim s.
Proof.
  unfold trim.
  assert (Hfix : trimStart (trimEnd (trimStart s)) = trimEnd (trimStart s)).
  { apply trimStart_fixed. intros c s' Hc.
    destruct (trimEnd_split (trimStart s)) as (q & Hq & _).
    rewrite Hc in Hq. cbn in Hq. by apply trimStart_head in Hq. }
  rewrite Hfix. apply trimEnd_idempotent.
Qed.

(** Trimming keeps a contiguous part of the text. *)
Lemma trim_part s : exists p q, s = p ++ trim s ++ q.
Proof.
  destruct (trimStart_split s) as (p & Hp & _).
  destruct (trimEnd_split (trimStart s)) as (q & Hq & _).
  exists p, q. unfold trim. by rewrite <- Hq.
Qed.

Lemma trim_keeps_absent (bad : N -> bool) s :
  existsb bad s = false -> existsb bad (trim s) = false.
Proof.
  destruct (trim_part s) as (p & q & Hs). intros H. rewrite Hs in H.
  rewrite !existsb_app in H. by repeat (apply orb_false_iff in H as [? H]).
Qed.

Lemma filter_absent (bad : N -> bool) s :
  existsb bad s = false -> List.filter (fun c => negb (bad c)) s = s.
Proof.
  induction s as [|c s IH]; cbn; [done|]. intros H.
  apply orb_false_iff in H as [-> H]. cbn. by rewrite IH.
Qed.

Lemma control_covers_null s :
  existsb is_control s = false -> existsb is_null s = false.
Proof.
  induction s as [|c s IH]; cbn; [done|]. intros H.
  apply orb_false_iff in H as [Hc H]. rewrite (IH H), orb_false_r.
  unfold is_null. destruct (c =? 0)%N eqn:Hz; [|done].
  apply N.eqb_eq in Hz. by subst c.
Qed.

Lemma filter_filter_control s :
  List.filter (fun c => negb (is_control c))
    (List.filter (fun c => negb (is_null c)) s)
  = List.filter (fun c => negb (is_control c)) s.
Proof.
  induction s as [|c s IH]; [done|]. cbn [List.filter].
  destruct (is_null c) eqn:Hn; cbn [negb].
  - unfold is_null in Hn. apply N.eqb_eq in Hn as ->. exact IH.
  - cbn [List.filter]. by rewrite IH.
Qed.

Lemma filter_keeps_absent (bad keep : N -> bool) s :
  existsb bad s = false -> existsb bad (List.filter keep s) = false.
Proof.
  induction s as [|c s IH]; [done|]. cbn. intros H.
  apply orb_false_iff in H as [Hc H]. destruct (keep c); cbn; rewrite ?Hc; auto.
Qed.

Lemma filter_removes (bad : N -> bool) s :
  existsb bad (List.filter (fun c => negb (bad c)) s) = false.
Proof.
  induction s as [|c s IH]; [done|]. cbn.
  destruct (bad c) eqn:Hc; cbn; by rewrite ?Hc.
Qed.

Section SanitizerFacts.

Variable purify : jsstring -> jsstring.

(** The external sanitizer hands back text without [<] unchanged. *)
Hypothesis purify_plain :
  forall s, existsb (N.eqb 60) s = false -> purify s = s.

(** A text that is trimmed, free of control characters and free of [<] is
    a fixed point of the sanitizer. *)
Lemma sanitizeInput_fixed y :
  trim y = y -> existsb is_control y = false -> existsb (N.eqb 60) y = false ->
  sanitizeInput purify y = y.
Proof.
  intros Htrim Hctl Hlt. unfold sanitizeInput. destruct y as [|c y]; [done|].
  rewrite Htrim, (filter_absent is_null) by by apply control_covers_null.
  rewrite (filter_absent is_control) by done. by apply purify_plain.
Qed.

Lemma sanitizeInput_plain x :
  existsb is_control x = false -> existsb (N.eqb 60) x = false ->
  sanitizeInput purify x = trim x.
Proof.
  intros Hctl Hlt. unfold sanitizeInput. destruct x as [|c x]; [done|].
  pose proof (trim_keeps_absent _ _ Hctl) as Hctl'.
  pose proof (trim_keeps_absent _ _ Hlt) as Hlt'.
  rewrite (filter_absent is_null) by by apply control_covers_null.
  rewrite (filter_absent is_control) by done. by apply purify_plain.
Qed.

(** On text without [<] the sanitizer trims and removes the control
    characters. *)
Lemma sanitizeInput_no_markup x :
  existsb (N.eqb 60) x = false ->
  sanitizeInput purify x = List.filter (fun c => negb (is_control c)) (trim x).
Proof.
  intros Hlt. unfold sanitizeInput. destruct x as [|c x]; [done|]. cbn zeta.
  rewrite filter_filter_control. apply purify_plain.
  by apply filter_keeps_absent, trim_keeps_absent.
Qed.

(** C8, as the code has it.  On an input without [<] (text the external
    sanitizer leaves alone) the sanitizer returns the trimmed input without
    its control characters, and a second pass only trims that result.  So
    the second pass changes nothing exactly when the first result neither
    starts nor ends with whitespace; this is the case whenever the input has
    no control character, but not always: the sanitizer trims before it
    removes the control characters, and whitespace uncovered by the removal
    is trimmed only by the next pass. *)
Theorem sanitizeInput_idempotent_on_plain x :
  existsb (N.eqb 60) x = false ->
  let y := sanitizeInput purify x in
  y = List.filter (fun c => negb (is_control c)) (trim x)
  /\ sanitizeInput purify y = trim y
  /\ (sanitizeInput purify y = y <-> trim y = y)
  /\ (existsb is_control x = false -> sanitizeInput purify y = y).
Proof.
  intros Hlt y.
  assert (Hy : y = List.filter (fun c => negb (is_control c)) (trim x))
    by by apply sanitizeInput_no_markup.
  assert (Hctl : existsb is_control y = false)
    by (rewrite Hy; apply filter_removes).
  assert (Hlt' : existsb (N.eqb 60) y = false)
    by (rewrite Hy; by apply filter_keeps_absent, trim_keeps_absent).
  assert (Hsecond : sanitizeInput purify y = trim y).
  { rewrite (sanitizeInput_no_markup y Hlt').
    apply filter_absent. by apply trim_keeps_absent. }
  split; [exact Hy|]. split; [exact Hsecond|]. split; [by rewrite Hsecond|].
  intros Hplain. rewrite Hsecond, Hy.
  rewrite (filter_absent is_control) by by apply trim_keeps_absent.
  apply trim_idempotent.
Qed.

End SanitizerFacts.

Section SecureMessageFacts.

Variable purify : jsstring -> jsstring.

(** C10.  [createSecureMessage] returns null exactly when the conversation
    id or the user id is not well formed, the content is not valid, or the
    injection heuristic fires on the content; an object it returns carries
    the two ids as given and the sanitized content in both content fields. *)
Theorem createSecureMessage_result cid uid text :
  (createSecureMessage purify cid uid text = None
   <-> validateConversationId cid = false \/ validateUserId uid = false
       \/ validateMessageContent text = false
       \/ detectInjectionAttempt text = true)
  /\ (forall m, createSecureMessage purify cid uid text = Some m ->
        conversationId m = cid /\ messageUserId m = uid
        /\ content m = sanitizeInput purify text
        /\ sanitizedContent m = sanitizeInput purify text).
Proof.
  unfold createSecureMessage.
  destruct (validateConversationId cid), (validateUserId uid),
    (validateMessageContent text), (detectInjectionAttempt text); cbn;
    (split; [split; [auto|intros [|[|[|]]]; done]|]);
    try done; by intros m [= <-].
Qed.

End SecureMessageFacts.

Lemma stripTags_plain s : existsb (N.eqb 60) s = false -> stripTags s = s.
Proof.
  unfold stripTags. induction s as [|c s IH]; [done|].
  cbn [existsb stripTags_go]. intros H.
  apply orb_false_iff in H as [Hc H]. rewrite N.eqb_sym in Hc.
  rewrite Hc. by rewrite IH.
Qed.

Lemma sanitizeInput_idempotent_on_plain_witness :
  sanitizeInput stripTags [32; 97; 1; 98; 32]%N = [97; 98]%N
  /\ sanitizeInput stripTags (sanitizeInput stripTags [32; 97; 1; 98; 32]%N)
     = sanitizeInput stripTags [32; 97; 1; 98; 32]%N.
Proof.
  split; [vm_compute; reflexivity|].
  pose proof (sanitizeInput_idempotent_on_plain stripTags stripTags_plain
                [32; 97; 1; 98; 32]%N ltac:(vm_compute; reflexivity)) as H.
  cbv zeta in H. destruct H as (_ & _ & Hiff & _).
  apply Hiff. vm_compute. reflexivity.
Defined.

(** C8, counterexample: the input is U+0001, a space and "a".  The first
    pass removes the control character and returns " a"; the second pass
    trims it to "a". *)
Lemma sanitizeInput_counterexample :
  sanitizeInput stripTags [1; 32; 97]%N = [32; 97]%N
  /\ sanitizeInput stripTags (sanitizeInput stripTags [1; 32; 97]%N) = [97]%N
  /\ sanitizeInput stripTags (sanitizeInput stripTags [1; 32; 97]%N)
     <> sanitizeInput stripTags [1; 32; 97]%N.
Proof. repeat split. vm_compute. discriminate. Defined.

(** The same failure for any sanitizer that leaves markup-free text alone. *)
Lemma sanitizeInput_not_idempotent purify :
  (forall s, existsb (N.eqb 60) s = false -> purify s = s) ->
  sanitizeInput purify [1; 32; 97]%N = [32; 97]%N
  /\ sanitizeInput purify (sanitizeInput purify [1; 32; 97]%N) = [97]%N.
Proof.
  intros Hplain.
  assert (H1 : sanitizeInput purify [1; 32; 97]%N = [32; 97]%N)
    by (cbn; by rewrite Hplain).
  split; [done|]. rewrite H1. cbn. by rewrite Hplain.
Qed.

Lemma createSecureMessage_result_witness :
  exists m,
    createSecureMessage stripTags (lit "conv-1") (lit "abcdefghij0123456789ABCD")
      (lit "  hello there  ") = Some m
    /\ conversationId m = lit "conv-1"
    /\ content m = sanitizeInput stripTags (lit "  hello there  ")
    /\ sanitizedContent m = lit "hello there".
Proof.
  destruct (createSecureMessage_result stripTags (lit "conv-1")
              (lit "abcdefghij0123456789ABCD") (lit "  hello there  "))
    as [_ Hsome].
  eexists. split; [vm_compute; reflexivity|].
  edestruct Hsome as (Hc & _ & Ht & Hs); [vm_compute; reflexivity|].
  split; [exact Hc|]. split; [exact Ht|]. rewrite Hs. vm_compute. reflexivity.
Defined.

(** * Properties of the rate limiter *)

Section RateLimiterFacts.

Variable rl : RateLimiter.

(** Inside the window a call is allowed while the count is below the
    maximum, and then counts itself. *)
Lemma isAllowed_in_window (items : gmap jsstring Item) c r t :
  items !! rl_key rl = Some (Counter c r) -> t <= r ->
  isAllowed rl t (Some items)
  = (bool_decide (c < maxRequests rl),
     Some (<[rl_key rl :=
               Counter (if bool_decide (c < maxRequests rl) then c + 1 else c) r]>
             items)).
Proof.
  intros Hitem Ht. unfold isAllowed. rewrite Hitem.
  rewrite (proj2 (Z.ltb_ge r t)) by lia.
  destruct (maxRequests rl <=? c) eqn:Hmax.
  - apply Z.leb_le in Hmax. rewrite bool_decide_eq_false_2 by lia.
    by rewrite insert_id.
  - apply Z.leb_gt in Hmax. by rewrite bool_decide_eq_true_2 by lia.
Qed.

Lemma calls_in_window ts : forall (items : gmap jsstring Item) c r,
  items !! rl_key rl = Some (Counter c r) ->
  Forall (fun t => t <= r) ts ->
  (calls rl ts (Some items)).1
  = (fun i => bool_decide (c + Z.of_nat i < maxRequests rl)) <$> seq 0 (length ts)
  /\ exists c', (calls rl ts (Some items)).2
                = Some (<[rl_key rl := Counter c' r]> items).
Proof.
  induction ts as [|t ts IH]; intros items c r Hitem Hts.
  - cbn. split; [done|]. exists c. by rewrite insert_id.
  - apply Forall_cons in Hts as [Ht Hts]. cbn [calls length seq fmap list_fmap].
    rewrite (isAllowed_in_window items c r t Hitem Ht). cbn [fst snd].
    set (c1 := if bool_decide (c < maxRequests rl) then c + 1 else c).
    destruct (IH (<[rl_key rl := Counter c1 r]> items) c1 r
                ltac:(by rewrite lookup_insert_eq) Hts) as (Hres & c' & Hfin).
    split.
    + rewrite Hres, Z.add_0_r. f_equal.
      rewrite <- fmap_S_seq, <- list_fmap_compose.
      apply list_fmap_ext. intros _ i _. cbn. subst c1.
      apply bool_decide_ext. case_bool_decide; lia.
    + exists c'. rewrite Hfin. by rewrite insert_insert_eq.
Qed.

(** C9, as the code has it.  For a limiter whose maximum N is at least 1 and
    whose key is not in the storage yet: of the calls made from the first
    one on while the clock has not passed the window's resetAt, the i-th
    (counting from 0) is allowed exactly when i < N, so the first N are
    allowed and the (N+1)th is denied; a call made after resetAt is allowed
    again and restarts the counter at 1. *)
Theorem rate_limiter_window (items : gmap jsstring Item) t0 ts t' :
  1 <= maxRequests rl ->
  items !! rl_key rl = None ->
  Forall (fun t => t <= t0 + windowMs rl) ts ->
  t0 + windowMs rl < t' ->
  let run := calls rl (t0 :: ts) (Some items) in
  run.1 = (fun i => bool_decide (Z.of_nat i < maxRequests rl))
            <$> seq 0 (S (length ts))
  /\ (isAllowed rl t' run.2).1 = true
  /\ exists items',
       (isAllowed rl t' run.2).2 = Some items'
       /\ items' !! rl_key rl = Some (Counter 1 (t' + windowMs rl)).
Proof.
  intros Hmax Hfresh Hts Hlate run. subst run. cbn [calls].
  assert (Hfirst : isAllowed rl t0 (Some items)
                   = (true, Some (<[rl_key rl := Counter 1 (t0 + windowMs rl)]> items))).
  { unfold isAllowed. by rewrite Hfresh. }
  rewrite Hfirst. cbn [fst snd].
  destruct (calls_in_window ts
              (<[rl_key rl := Counter 1 (t0 + windowMs rl)]> items)
              1 (t0 + windowMs rl) ltac:(by rewrite lookup_insert_eq) Hts)
    as (Hres & c' & Hfin).
  split; [|rewrite Hfin; unfold isAllowed; rewrite lookup_insert_eq;
           rewrite (proj2 (Z.ltb_lt _ _) Hlate); cbn; split; [done|];
           eexists; split; [done|]; by rewrite lookup_insert_eq].
  cbn [seq fmap list_fmap]. rewrite bool_decide_eq_true_2 by lia.
  f_equal. rewrite Hres, <- fmap_S_seq, <- list_fmap_compose.
  apply list_fmap_ext. intros _ i _. cbn.
  apply bool_decide_ext. lia.
Qed.

End RateLimiterFacts.

Lemma rate_limiter_window_witness :
  (calls (new_RateLimiter (lit "send") 3 60000) [1000; 1001; 1002; 1003]
     (Some ∅)).1 = [true; true; true; false]
  /\ (isAllowed (new_RateLimiter (lit "send") 3 60000) 61001
        (calls (new_RateLimiter (lit "send") 3 60000) [1000; 1001; 1002; 1003]
           (Some ∅)).2).1 = true.
Proof.
  pose proof (rate_limiter_window (new_RateLimiter (lit "send") 3 60000)
                ∅ 1000 [1001; 1002; 1003] 61001
                ltac:(cbn; lia) ltac:(apply lookup_empty)
                ltac:(repeat constructor; cbn; lia) ltac:(cbn; lia)) as H.
  cbv zeta in H. destruct H as (Hres & Hlate & _).
  split; [rewrite Hres; vm_compute; reflexivity|exact Hlate].
Defined.

(** C9, counterexample: with a maximum of 0 the first call, which is the
    (N+1)th, finds no item and is allowed. *)
Lemma rate_limiter_counterexample :
  maxRequests (new_RateLimiter (lit "send") 0 60000) = 0
  /\ (calls (new_RateLimiter (lit "send") 0 60000) [1000] (Some ∅)).1 = [true].
Proof. split; vm_compute; reflexivity. Defined.

(** * Further properties of the admin routes *)

Section MoreAdminFacts.
Variable env : Env.

(** Verify Admin answers success with an id exactly when the body carries a
    token that passes the schema, the identity provider reports that id as
    its subject and the subject's record passes the admin check; it never
    changes the store, and every other answer is a 401. *)
Theorem verify_admin_reports_subject schemas req w :
  let r := handleVerifyAdmin env schemas req w in
  (forall u,
      r.1 = mkResponse 200 (AdminVerified u)
      <-> exists tok v,
            VerifyAdminSchema schemas (body req) = Some tok
            /\ adminAuth env = Some v /\ v tok = Some u
            /\ is_admin (store w) u = true)
  /\ store r.2 = store w /\ writes r.2 = writes w
  /\ (is_error r.1 = true -> status r.1 = 401%nat).
Proof.
  cbn zeta. unfold handleVerifyAdmin, try_catch, bind.
  destruct (VerifyAdminSchema schemas (body req)) as [tok|] eqn:Hp; cbn.
  2:{ repeat split; try done. by intros (? & ? & ? & _). }
  pose proof (verifyAdmin_returns env tok w) as Hv.
  destruct (verifyAdmin env tok w) as [[uid|e] w1]; cbn.
  - destruct Hv as ((v & Hauth & Hvt) & Hadm & ->).
    repeat split; try done.
    + intros [= <-]. eauto 6.
    + intros (tok' & v' & [= <-] & Hauth' & Hvt' & _). congruence.
    + by apply writes_issue_read.
  - destruct Hv as (Hs & Hw & _ & _ & _ & Hrej).
    repeat split; try done.
    intros (tok' & v' & [= <-] & Hauth' & Hvt' & Hadm).
    rewrite (Hrej v' u) in Hadm; done.
Qed.

(** List Users never changes the store and issues no write, whatever the
    request and whoever the caller; it answers 200 with a listing or 401 with
    an error. *)
Theorem list_users_is_read_only req w :
  let r := handleGetAllUsers env req w in
  store r.2 = store w /\ writes r.2 = writes w
  /\ ((status r.1 = 200%nat /\ is_error r.1 = false)
      \/ (status r.1 = 401%nat /\ is_error r.1 = true)).
Proof.
  cbn zeta. unfold handleGetAllUsers, try_catch, bind.
  pose proof (header_token_returns req w) as Hh.
  destruct (header_token req w) as [[tok|e] w1];
    [destruct Hh as [_ ->]|destruct Hh as [-> _]; cbn; auto].
  pose proof (verifyAdmin_returns env tok w) as Hv.
  destruct (verifyAdmin env tok w) as [[uid|e] w1]; cbn.
  - destruct Hv as (_ & _ & ->). repeat split; auto.
    unfold writes; cbn. by rewrite !filter_write_read.
  - destruct Hv as (Hs & Hw & _). auto.
Qed.

(** Ban User touches nothing but the ban collection, to which it appends one
    record exactly when it answers success; its answers are 200, 400, 403
    or 404, and every answer other than 200 is an error that leaves the
    store as it was. *)
Theorem ban_user_frame schemas req w :
  let r := handleBanUser env schemas req w in
  users (store r.2) = users (store w)
  /\ licenses (store r.2) = licenses (store w)
  /\ ((r.1 = mkResponse 200 UserBanned
       /\ exists b, bans (store r.2) = bans (store w) ++ [b])
      \/ (is_error r.1 = true /\ store r.2 = store w
          /\ (status r.1 = 400 \/ status r.1 = 403 \/ status r.1 = 404)%nat)).
Proof.
  cbn zeta. unfold handleBanUser, try_catch, bind.
  destruct (BanUserSchema schemas (zod_uuid env) (body req)) as [input|];
    cbn; [|auto 10].
  pose proof (verifyAdmin_returns env (ban_idToken input) w) as Hv.
  destruct (verifyAdmin env (ban_idToken input) w) as [[uid|e] w1]; cbn.
  2:{ destruct Hv as (Hs & _). rewrite Hs. auto 10. }
  destruct Hv as (_ & _ & ->). cbn.
  destruct (users (store w) !! ban_userId input) as [data|]; cbn; [|auto 10].
  destruct (truthy (field data "isAdmin")); cbn; [auto 10|].
  repeat split. left. split; [done|]. by eexists.
Qed.

(** Create License takes the bearer token first, the admin check second
    and the payload last: without a usable Authorization header it answers
    400 "No ID token provided" and nothing at all has happened; with an
    admin's token and a payload that fails the inline schema it answers
    400 with the validation error after the one read of the admin check,
    and the store is unchanged. *)
Theorem create_license_rejections req w :
  let r := handleCreateLicense env req w in
  ((forall c tok, bearer_token req <> Some (c :: tok)) ->
     r = (mkResponse 400 (Failure "Failed to create license"
                            (Some (Error "No ID token provided"))), w))
  /\ (forall c tok v uid,
        bearer_token req = Some (c :: tok) ->
        adminAuth env = Some v -> v (c :: tok) = Some uid ->
        is_admin (store w) uid = true ->
        license_schema (body req) = None ->
        r = (mkResponse 400 (Failure "Failed to create license" (Some ZodError)),
             issue (DocGet "users" uid) w)).
Proof.
  cbn zeta. unfold handleCreateLicense, try_catch, bind, header_token. split.
  - intros Hnone. destruct (bearer_token req) as [[|c tok]|]; try done.
    by destruct (Hnone c tok).
  - intros c tok v uid -> Hauth Hv Hadm Hp. cbn.
    rewrite (verifyAdmin_admits env _ _ _ _ Hauth Hv Hadm). cbn.
    by rewrite Hp.
Qed.



(** The whole result of a Ban User request that goes through. *)
Lemma handleBanUser_goes_through schemas req w input v adminUid data :
  BanUserSchema schemas (zod_uuid env) (body req) = Some input ->
  adminAuth env = Some v ->
  v (ban_idToken input) = Some adminUid ->
  is_admin (store w) adminUid = true ->
  users (store w) !! ban_userId input = Some data ->
  truthy (field data "isAdmin") = false ->
  handleBanUser env schemas req w
  = (mkResponse 200 UserBanned,
     mkWorld
       (mkStore (users (store w))
          (bans (store w)
           ++ [mkBan (ban_userId input) (ban_reason input) adminUid
                 (clock env (ticks w)) (ban_duration input)
                 (new_Date (clock env (S (ticks w)) + ban_duration input * 1000))])
          (licenses (store w)))
       (((oplog w ++ [DocGet "users" adminUid])
         ++ [DocGet "users" (ban_userId input)]) ++ [DocAdd "bans"])
       (S (S (ticks w))) (draws w)).
Proof.
  intros Hp Hauth Hv Hadm Hdoc Hflag.
  unfold handleBanUser, try_catch, bind. rewrite Hp. cbn.
  rewrite (verifyAdmin_admits env _ _ _ _ Hauth Hv Hadm). cbn.
  rewrite Hdoc. cbn. by rewrite Hflag.
Qed.

(** Ban User is not idempotent: the same request handled twice in a row
    succeeds twice and leaves two ban records, alike but for their clock
    readings; nothing checks for an existing ban of the target. *)
Theorem ban_user_twice schemas req w input v adminUid data :
  BanUserSchema schemas (zod_uuid env) (body req) = Some input ->
  adminAuth env = Some v ->
  v (ban_idToken input) = Some adminUid ->
  is_admin (store w) adminUid = true ->
  users (store w) !! ban_userId input = Some data ->
  truthy (field data "isAdmin") = false ->
  let r := twice (handleBanUser env schemas) req w in
  exists b1 b2,
    r.1.1 = mkResponse 200 UserBanned /\ r.1.2 = mkResponse 200 UserBanned
    /\ bans (store r.2) = bans (store w) ++ [b1; b2]
    /\ userId b1 = userId b2 /\ reason b1 = reason b2
    /\ bannedBy b1 = bannedBy b2 /\ duration b1 = duration b2
    /\ bannedAt b1 = clock env (ticks w)
    /\ bannedAt b2 = clock env (S (S (ticks w))).
Proof.
  intros Hp Hauth Hv Hadm Hdoc Hflag. cbn zeta. unfold twice.
  rewrite (handleBanUser_goes_through _ _ _ _ _ _ _ Hp Hauth Hv Hadm Hdoc Hflag).
  cbn [fst snd].
  rewrite (handleBanUser_goes_through _ _ _ input v adminUid data); try done.
  cbn. eexists _, _. rewrite <- app_assoc. repeat split.
Qed.

(** The whole result of a Create License request that goes through. *)
Lemma handleCreateLicense_goes_through req w c tok v uid p n :
  bearer_token req = Some (c :: tok) ->
  adminAuth env = Some v -> v (c :: tok) = Some uid ->
  is_admin (store w) uid = true ->
  license_schema (body req) = Some (p, n) ->
  let k := lit "LIC-" ++ decimal (clock env (ticks w)) ++ lit "-"
           ++ toUpperCase (substr 2 9 (toString36 (random36 env (draws w)))) in
  handleCreateLicense env req w
  = (mkResponse 200 (LicenseCreated k),
     mkWorld
       (mkStore (users (store w)) (bans (store w))
          (<[k := mkLicense k p n uid (clock env (S (ticks w))) false None None]>
             (licenses (store w))))
       ((oplog w ++ [DocGet "users" uid]) ++ [DocSet "licenses" k])
       (S (S (ticks w))) (S (draws w))).
Proof.
  intros Htok Hauth Hv Hadm Hp. cbn zeta.
  unfold handleCreateLicense, try_catch, bind, header_token.
  rewrite Htok. cbn. rewrite (verifyAdmin_admits env _ _ _ _ Hauth Hv Hadm).
  cbn. by rewrite Hp.
Qed.

(** License keys are not checked for collisions: when a second Create
    License request reads the same millisecond and draws a random number
    with the same first nine radix-36 digits, it gets the same key and its
    record replaces the first one, so the two successful requests leave one
    license more, not two. *)
Theorem create_license_collision req w c tok v uid p n :
  bearer_token req = Some (c :: tok) ->
  adminAuth env = Some v -> v (c :: tok) = Some uid ->
  is_admin (store w) uid = true ->
  license_schema (body req) = Some (p, n) ->
  clock env (S (S (ticks w))) = clock env (ticks w) ->
  take 9 (random36 env (S (draws w))) = take 9 (random36 env (draws w)) ->
  let r := twice (handleCreateLicense env) req w in
  exists k,
    r.1.1 = mkResponse 200 (LicenseCreated k)
    /\ r.1.2 = mkResponse 200 (LicenseCreated k)
    /\ licenses (store r.2)
       = <[k := mkLicense k p n uid (clock env (S (S (S (ticks w))))) false
                  None None]> (licenses (store w)).
Proof.
  intros Htok Hauth Hv Hadm Hp Hclock Hrand. cbn zeta. unfold twice.
  rewrite (handleCreateLicense_goes_through _ _ _ _ _ _ _ _ Htok Hauth Hv Hadm Hp).
  cbn [fst snd].
  rewrite (handleCreateLicense_goes_through _ _ c tok v uid p n); try done.
  cbn [store ticks draws users bans licenses fst snd].
  rewrite Hclock, !suffix_of_random, Hrand.
  eexists. split; [done|]. split; [done|]. by rewrite insert_insert_eq.
Qed.

End MoreAdminFacts.

(** *** The bearer token of the Authorization header *)

Lemma starts_with_prefix p s :
  starts_with p s = true -> exists rest, s = p ++ rest.
Proof.
  revert s. induction p as [|a p IH]; intros s; cbn; [by exists s|].
  destruct s as [|b s]; [done|]. intros H.
  apply andb_true_iff in H as [Hab H]. apply N.eqb_eq in Hab as ->.
  destruct (IH s H) as [rest ->]. by exists rest.
Qed.

(** Text without a space holds no occurrence of ["Bearer "]. *)
Lemma split_Bearer_no_space s : forall cur,
  existsb (N.eqb 32) s = false ->
  split_go (lit "Bearer ") s 0 cur = [cur ++ s].
Proof.
  induction s as [|a s IH]; intros cur Hs; [by rewrite app_nil_r|].
  cbn [split_go].
  destruct (starts_with (lit "Bearer ") (a :: s)) eqn:Hpre.
  - apply starts_with_prefix in Hpre as [rest Hrest]. rewrite Hrest in Hs.
    vm_compute in Hs. discriminate.
  - cbn [existsb] in Hs. apply orb_false_iff in Hs as [_ Hs].
    rewrite (IH _ Hs). by rewrite <- app_assoc.
Qed.

(** The token taken from the header: what follows ["Bearer "] when the
    header starts with it and the token holds no space; nothing when the
    header is absent or holds no space at all (no scheme). *)
Theorem bearer_token_of_header b tok h :
  existsb (N.eqb 32) tok = false ->
  existsb (N.eqb 32) h = false ->
  bearer_token (mkRequest (Some (lit "Bearer " ++ tok)) b) = Some tok
  /\ bearer_token (mkRequest (Some h) b) = None
  /\ bearer_token (mkRequest None b) = None.
Proof.
  intros Htok Hh. unfold bearer_token, split; cbn [authorization mbind option_bind].
  repeat split.
  - assert (Hsplit : split_go (lit "Bearer ") (lit "Bearer " ++ tok) 0 []
                     = [] :: split_go (lit "Bearer ") tok 0 []) by reflexivity.
    rewrite Hsplit. by rewrite (split_Bearer_no_space tok [] Htok).
  - by rewrite (split_Bearer_no_space h [] Hh).
Qed.

(** *** The schema sets *)

Lemma guard_true b : guard b = Some tt <-> b = true.
Proof. by destruct b. Qed.

Lemma idToken_strict_original x s :
  idToken_schema strict x = Some s ->
  idToken_schema original x = Some s
  /\ 10 <= len s <= 3000 /\ token_format s = true.
Proof.
  unfold idToken_schema. destruct (z_string x) as [t|]; [|done]. cbn.
  destruct ((10 <=? len t) && (len t <=? 3000) && token_format t) eqn:Hg;
    cbn; [|done].
  intros [= <-]. apply andb_true_iff in Hg as [Hg Hfmt].
  apply andb_true_iff in Hg as [Hlo Hhi]. apply Z.leb_le in Hlo, Hhi.
  rewrite (proj2 (Z.leb_le 1 (len t))) by lia. cbn. repeat split; auto.
Qed.

(** The strict schemas accept no more than the schemas of
    [server/routes/admin.ts]: a body accepted by the strict Verify Admin or
    Ban User schema is accepted by the original one with the same token,
    user id and duration (the strict reason is the original one trimmed),
    and a body accepted by [CreateLicenseSchema] is accepted by the inline
    schema of the handler with the same plan and a validity of 1 to 3650
    days. *)
Theorem strict_schemas_refine_original uuid b :
  (forall tok, VerifyAdminSchema strict b = Some tok ->
     VerifyAdminSchema original b = Some tok)
  /\ (forall i, BanUserSchema strict uuid b = Some i ->
        exists r,
          BanUserSchema original uuid b
          = Some (mkBanUserInput (ban_idToken i) (ban_userId i) r (ban_duration i))
          /\ ban_reason i = trim r)
  /\ (forall i, CreateLicenseSchema b = Some i ->
        license_schema b = Some (lic_plan i, lic_validityDays i)
        /\ 1 <= lic_validityDays i <= 3650).
Proof.
  split; [|split].
  - intros tok H. by apply idToken_strict_original in H as [H _].
  - unfold BanUserSchema. intros i H.
    destruct (idToken_schema strict _) as [t|] eqn:Ht; [|done].
    apply idToken_strict_original in Ht as [-> _]. cbn in *.
    unfold userId_schema in *.
    destruct (z_string (field b "userId")) as [u|]; [|done]. cbn in *.
    destruct ((10 <=? len u) && (len u <=? 100)) eqn:Hu; cbn in H; [|done].
    apply andb_true_iff in Hu as [-> _]. rewrite orb_true_r. cbn.
    unfold reason_schema in *.
    destruct (z_string (field b "reason")) as [r|]; [|done]. cbn in *.
    destruct (guard _); [|done]. cbn in *.
    unfold duration_schema in *.
    destruct (z_int (field b "duration")) as [d|]; [|done]. cbn in *.
    destruct ((1 <=? d) && (d <=? 36500)) eqn:Hd; cbn in H; [|done].
    apply andb_true_iff in Hd as [Hlo _]. apply Z.leb_le in Hlo.
    rewrite (proj2 (Z.ltb_lt 0 d)) by lia. cbn.
    injection H as <-. by exists r.
  - intros i H. unfold CreateLicenseSchema, license_schema in *.
    destruct (idToken_schema strict _); [|done]. cbn in H.
    destruct (z_plan _); [|done]. cbn in *.
    destruct (z_int _) as [d|]; [|done]. cbn in *.
    destruct ((1 <=? d) && (d <=? 3650)) eqn:Hd; cbn in H; [|done].
    apply andb_true_iff in Hd as [Hlo Hhi]. apply Z.leb_le in Hlo, Hhi.
    rewrite (proj2 (Z.ltb_lt 0 d)) by lia. injection H as <-. cbn.
    split; [done|lia].
Qed.

Lemma trimStart_blank s : forallb is_whitespace s = true -> trimStart s = [].
Proof.
  induction s as [|c s IH]; cbn; [done|]. intros H.
  apply andb_true_iff in H as [-> H]. auto.
Qed.

(** The strict schema checks the length of the ban reason before trimming
    it: the reason it yields is trimmed and at most 500 long, but it may be
    shorter than 5, and a reason of 5 to 500 whitespace characters is
    accepted and yields the empty reason. *)
Theorem strict_reason_is_trimmed_late x r s :
  (reason_schema strict x = Some r -> trim r = r /\ len r <= 500)
  /\ (forallb is_whitespace s = true -> 5 <= len s <= 500 ->
      reason_schema strict (JStr s) = Some []).
Proof.
  unfold reason_schema. split.
  - destruct (z_string x) as [t|]; [|done]. cbn.
    destruct ((5 <=? len t) && (len t <=? 500)) eqn:Hg; cbn; [|done].
    intros [= <-]. split; [apply trim_idempotent|].
    apply andb_true_iff in Hg as [_ Hhi]. apply Z.leb_le in Hhi.
    destruct (trim_part t) as (p & q & Ht). unfold len in *.
    rewrite Ht in Hhi. rewrite !length_app in Hhi. lia.
  - intros Hws [Hlo Hhi]. cbn.
    rewrite (proj2 (Z.leb_le _ _) Hlo), (proj2 (Z.leb_le _ _) Hhi). cbn.
    unfold trim. by rewrite (trimStart_blank s Hws).
Qed.

(** * Further properties of the rate limiter *)

Section MoreRateLimiterFacts.
Variable rl : RateLimiter.

Lemma isAllowed_keeps_access (t : Z) (items : gmap jsstring Item) :
  exists items', (isAllowed rl t (Some items)).2 = Some items'
                 /\ forall k, k <> rl_key rl -> items' !! k = items !! k.
Proof.
  unfold isAllowed.
  destruct (items !! rl_key rl) as [[c r| |]|]; cbn;
    [destruct (r <? t); [|destruct (maxRequests rl <=? c)]|..];
    eexists; (split; [done|]); intros k Hk; by rewrite ?lookup_insert_ne.
Qed.

Lemma calls_keep_access (ts : list Z) : forall (items : gmap jsstring Item),
  exists items', (calls rl ts (Some items)).2 = Some items'.
Proof.
  induction ts as [|t ts IH]; intros items; cbn [calls snd]; [by eexists|].
  destruct (isAllowed_keeps_access t items) as (items1 & -> & _). apply IH.
Qed.

(** The limiter fails open: when the storage is inaccessible every call is
    allowed, and when the stored item is text that does not parse every
    call is allowed and the item is never repaired. *)
Theorem rate_limiter_fails_open (ts : list Z) :
  calls rl ts None = (replicate (length ts) true, None)
  /\ forall items : gmap jsstring Item,
       items !! rl_key rl = Some Unparsable ->
       calls rl ts (Some items) = (replicate (length ts) true, Some items).
Proof.
  split.
  - induction ts as [|t ts IH]; [done|]. cbn [calls isAllowed fst snd].
    by rewrite IH.
  - intros items Hitem. induction ts as [|t ts IH]; [done|].
    assert (Hopen : isAllowed rl t (Some items) = (true, Some items))
      by (unfold isAllowed; by rewrite Hitem).
    cbn [calls]. rewrite Hopen. cbn [fst snd]. by rewrite IH.
Qed.

(** What a denial means: the item is a counter that has reached the
    maximum in a window that has not passed, and the denied call leaves the
    storage exactly as it was (it neither counts nor extends the window). *)
Theorem denied_call_changes_nothing (t : Z) localStorage :
  (isAllowed rl t localStorage).1 = false ->
  (isAllowed rl t localStorage).2 = localStorage
  /\ exists items c r,
       localStorage = Some items
       /\ items !! rl_key rl = Some (Counter c r)
       /\ maxRequests rl <= c /\ t <= r.
Proof.
  unfold isAllowed. destruct localStorage as [items|]; [|done].
  destruct (items !! rl_key rl) as [[c r| |]|] eqn:Hitem; try done.
  destruct (r <? t) eqn:Hr; [done|].
  destruct (maxRequests rl <=? c) eqn:Hc; [|done]. intros _.
  apply Z.ltb_ge in Hr. apply Z.leb_le in Hc. split; [done|]. eauto 10.
Qed.

(** From storage that does not hold the limiter's item, or holds a counter
    between 1 and the maximum, and whatever the clock readings of the calls,
    the stored count after at least one call is between 1 and the maximum
    (or is 1, for a maximum below 1): a denied call does not count. *)
Theorem stored_count_is_bounded (ts : list Z) : forall (items : gmap jsstring Item),
  (items !! rl_key rl = None
   \/ exists c r, items !! rl_key rl = Some (Counter c r)
                  /\ 1 <= c <= Z.max 1 (maxRequests rl)) ->
  ts <> [] ->
  exists c, stored_count rl (calls rl ts (Some items)).2 = Some c
            /\ 1 <= c <= Z.max 1 (maxRequests rl).
Proof.
  induction ts as [|t ts IH]; intros items Hinv Hne; [done|].
  cbn [calls snd].
  assert (Hstep : exists items1 c1 r1,
             (isAllowed rl t (Some items)).2 = Some items1
             /\ items1 !! rl_key rl = Some (Counter c1 r1)
             /\ 1 <= c1 <= Z.max 1 (maxRequests rl)).
  { unfold isAllowed. destruct Hinv as [-> | (c & r & Hitem & Hc)].
    - eexists _, _, _. split; [done|]. rewrite lookup_insert_eq. split; [done|lia].
    - rewrite Hitem. destruct (r <? t).
      + eexists _, _, _. split; [done|]. rewrite lookup_insert_eq.
        split; [done|lia].
      + destruct (maxRequests rl <=? c) eqn:Hmax.
        * eexists _, _, _. split; [done|]. eauto.
        * apply Z.leb_gt in Hmax. eexists _, _, _. split; [done|].
          rewrite lookup_insert_eq. split; [done|lia]. }
  destruct Hstep as (items1 & c1 & r1 & -> & Hitem1 & Hc1).
  destruct ts as [|t' ts].
  - cbn. unfold stored_count. cbn. rewrite Hitem1. eauto.
  - apply IH; [right; eauto|done].
Qed.

(** [reset] puts the limiter back to its start: after any calls on
    accessible storage, the first call after a reset is allowed, even right
    after a denial, and it opens a new window with a count of 1. *)
Theorem reset_restarts_the_window (items : gmap jsstring Item) (ts : list Z) (t : Z) :
  let before := (calls rl ts (Some items)).2 in
  let after := isAllowed rl t (reset rl before) in
  after.1 = true
  /\ exists items',
       after.2 = Some items'
       /\ items' !! rl_key rl = Some (Counter 1 (t + windowMs rl)).
Proof.
  cbn zeta. destruct (calls_keep_access ts items) as [items1 ->].
  unfold reset, isAllowed. cbn. rewrite lookup_delete_eq.
  split; [done|]. eexists. split; [done|]. by rewrite lookup_insert_eq.
Qed.

End MoreRateLimiterFacts.

(** Limiters with different keys do not interfere: a call or a reset of one
    changes neither the stored item nor the next answer of the other. *)
Theorem rate_limiters_are_independent (key1 key2 : jsstring)
    (n1 w1 n2 w2 t1 t2 : Z)
    (localStorage : option (gmap jsstring Item)) :
  key1 <> key2 ->
  let rl1 := new_RateLimiter key1 n1 w1 in
  let rl2 := new_RateLimiter key2 n2 w2 in
  ((isAllowed rl2 t2 localStorage).2 ≫= (fun items => items !! rl_key rl1))
  = (localStorage ≫= (fun items => items !! rl_key rl1))
  /\ (reset rl2 localStorage ≫= (fun items => items !! rl_key rl1))
     = (localStorage ≫= (fun items => items !! rl_key rl1))
  /\ (isAllowed rl1 t1 (isAllowed rl2 t2 localStorage).2).1
     = (isAllowed rl1 t1 localStorage).1
  /\ (isAllowed rl1 t1 (reset rl2 localStorage)).1
     = (isAllowed rl1 t1 localStorage).1.
Proof.
  intros Hkeys rl1 rl2.
  assert (Hne : rl_key rl1 <> rl_key rl2).
  { subst rl1 rl2. cbn. intros H. by apply app_inv_head in H. }
  destruct localStorage as [items|]; [|done].
  destruct (isAllowed_keeps_access rl2 t2 items) as (items2 & Hcall & Hframe).
  rewrite Hcall. specialize (Hframe _ Hne).
  assert (Hdel : delete (rl_key rl2) items !! rl_key rl1 = items !! rl_key rl1)
    by by apply lookup_delete_ne.
  split; [exact Hframe|]. split; [exact Hdel|].
  unfold isAllowed, reset. cbn [fmap option_fmap option_map].
  rewrite Hframe, Hdel.
  destruct (items !! rl_key rl1) as [[c r| |]|]; try done.
  by destruct (r <? t1), (maxRequests rl1 <=? c).
Qed.

(** * Further properties of the security helpers *)

(** *** CSRF tokens *)

Lemma hex_byte b :
  let s := padStart0 2 (toString16 (Byte.to_N b)) in
  length s = 2%nat /\ forallb is_hex s = true /\ unhex s = [Byte.to_N b].
Proof. destruct b; repeat split. Qed.

Lemma mjoin_fmap_cons {A} (f : A -> jsstring) a l :
  mjoin (f <$> a :: l) = f a ++ mjoin (f <$> l).
Proof. reflexivity. Qed.

Lemma hex_bytes (bs : list Byte.byte) :
  let t := mjoin ((fun b => padStart0 2 (toString16 (Byte.to_N b))) <$> bs) in
  length t = (2 * length bs)%nat /\ forallb is_hex t = true
  /\ unhex t = Byte.to_N <$> bs.
Proof.
  induction bs as [|b bs IH]; [done|]. cbn zeta in *.
  destruct IH as (Hlen & Hhex & Hun).
  destruct (hex_byte b) as (Hl & Hh & Hu). cbn zeta in *.
  rewrite mjoin_fmap_cons.
  destruct (padStart0 2 (toString16 (Byte.to_N b))) as [|x [|y [|z s]]];
    try done.
  cbn [app length forallb unhex] in *. rewrite Hhex, Hun, Hlen.
  apply andb_true_iff in Hh as [-> Hh]. apply andb_true_iff in Hh as [-> _].
  injection Hu as ->. repeat split. lia.
Qed.

(** A CSRF token is 64 lower-case hexadecimal digits that spell the 32
    random bytes, two digits each, so that different byte arrays never give
    the same token. *)
Theorem csrf_token_spells_its_bytes random_byte :
  let token := generateCSRFToken random_byte in
  length token = 64%nat /\ forallb is_hex token = true
  /\ unhex token = Byte.to_N <$> (random_byte <$> seq 0 32)
  /\ forall other,
       generateCSRFToken other = token ->
       forall i, (i < 32)%nat -> other i = random_byte i.
Proof.
  cbn zeta. unfold generateCSRFToken.
  destruct (hex_bytes (random_byte <$> seq 0 32)) as (Hlen & Hhex & Hun).
  cbn zeta in *. rewrite length_fmap, length_seq in Hlen.
  split; [exact Hlen|]. split; [exact Hhex|]. split; [exact Hun|].
  intros other Hsame i Hi.
  destruct (hex_bytes (other <$> seq 0 32)) as (_ & _ & Hun').
  cbn zeta in *. rewrite Hsame, Hun in Hun'.
  assert (Hi' : seq 0 32 !! i = Some i) by (by apply lookup_seq).
  pose proof (f_equal (fun l => l !! i) Hun') as Heq. cbv beta in Heq.
  rewrite !list_lookup_fmap, Hi' in Heq. cbn in Heq.
  injection Heq as Heq.
  pose proof (Byte.of_to_N (other i)) as H1.
  pose proof (Byte.of_to_N (random_byte i)) as H2. congruence.
Qed.

(** The stored CSRF token is the one stored last, and a token validates
    exactly when it equals it; with nothing stored no token validates. *)
Theorem csrf_token_round_trip token first (sessionStorage : gmap string jsstring) :
  getCSRFToken (storeCSRFToken token (storeCSRFToken first sessionStorage))
  = Some token
  /\ (forall candidate,
        validateCSRFToken candidate (storeCSRFToken token sessionStorage) = true
        <-> candidate = token)
  /\ (getCSRFToken sessionStorage = None ->
      forall candidate, validateCSRFToken candidate sessionStorage = false).
Proof.
  unfold validateCSRFToken, getCSRFToken, storeCSRFToken. repeat split.
  - by rewrite lookup_insert_eq.
  - rewrite lookup_insert_eq. intros H. by apply bool_decide_eq_true in H.
  - intros ->. rewrite lookup_insert_eq. by apply bool_decide_eq_true.
  - by intros ->.
Qed.

(** *** The injection heuristic *)

Lemma existsb_or {A} (f g : A -> bool) l :
  existsb (fun x => f x || g x) l = existsb f l || existsb g l.
Proof.
  induction l as [|x l IH]; cbn; [done|]. rewrite IH.
  destruct (f x), (g x), (existsb f l), (existsb g l); done.
Qed.

Lemma pattern_fires pattern input :
  In pattern suspiciousPatterns -> pattern input = true -> input <> [] ->
  detectInjectionAttempt input = true.
Proof.
  intros Hin Hp Hne. unfold detectInjectionAttempt.
  destruct input as [|c input]; [done|]. apply existsb_exists. eauto.
Qed.

Lemma detected_is_rejected purify cid uid text :
  detectInjectionAttempt text = true ->
  createSecureMessage purify cid uid text = None
  /\ createSecureConversation purify uid text = None.
Proof.
  intros Hd. unfold createSecureMessage, createSecureConversation.
  rewrite Hd. split.
  - by destruct (validateConversationId cid), (validateUserId uid),
      (validateMessageContent text).
  - by destruct (validateUserId uid), (validateConversationTitle text).
Qed.

(** Text that contains one of the characters { } $ [ ] ; & | ` ( ) is flagged
    by the injection heuristic, so no message and no conversation title
    containing one of them is ever accepted. *)
Theorem flagged_characters_are_rejected purify cid uid text :
  existsb flagged_char text = true ->
  detectInjectionAttempt text = true
  /\ createSecureMessage purify cid uid text = None
  /\ createSecureConversation purify uid text = None.
Proof.
  intros Hflag.
  assert (Hd : detectInjectionAttempt text = true).
  { assert (Hne : text <> []) by (by destruct text).
    unfold flagged_char in Hflag. rewrite existsb_or in Hflag.
    apply orb_true_iff in Hflag as [Hp | Hp];
      (eapply pattern_fires; [|exact Hp|exact Hne]);
      unfold suspiciousPatterns; cbn [In]; auto 10. }
  split; [exact Hd|]. by apply detected_is_rejected.
Qed.

Lemma upper_upper c : upper (upper c) = upper c.
Proof.
  unfold upper. destruct (is_lower c) eqn:Hc; [|by rewrite Hc].
  unfold is_lower, in_range in *.
  apply andb_true_iff in Hc as [Hlo Hhi]. apply N.leb_le in Hlo, Hhi.
  rewrite (proj2 (N.leb_gt 97 (c - 32))) by lia. done.
Qed.

Lemma strip_ci_own_case kw rest :
  strip_ci (toUpperCase kw) (kw ++ rest) = Some rest.
Proof.
  unfold toUpperCase. induction kw as [|c kw IH]; [by destruct rest|].
  cbn [fmap list_fmap app strip_ci]. by rewrite upper_upper, N.eqb_refl.
Qed.

Lemma sql_scan_app pre s : forall prev,
  (match List.rev pre with c :: _ => negb (is_word c) | [] => negb prev end) = true ->
  sql_scan false s = true ->
  sql_scan prev (pre ++ s) = true.
Proof.
  induction pre as [|a pre IH]; intros prev Hend Hs.
  - cbn in Hend. apply negb_true_iff in Hend as ->. exact Hs.
  - cbn [app sql_scan]. rewrite IH; [apply orb_true_r| |exact Hs].
    cbn [List.rev] in Hend. destruct (List.rev pre) as [|c l]; cbn in *; done.
Qed.

(** A keyword of the first pattern (SELECT, INSERT, ..., OR, AND), in any
    mix of cases, that stands as a word of its own (at the start of the text
    or after a non-word character, and at the end or before one) is flagged:
    no message or title containing the word "and" or "or" is accepted. *)
Theorem standalone_keyword_is_rejected purify cid uid pre kw post :
  is_sql_keyword kw ->
  ends_off_word pre = true ->
  word_next post = false ->
  detectInjectionAttempt (pre ++ kw ++ post) = true
  /\ createSecureMessage purify cid uid (pre ++ kw ++ post) = None
  /\ createSecureConversation purify uid (pre ++ kw ++ post) = None.
Proof.
  intros Hkw Hpre Hpost.
  assert (Hhere : sql_scan false (kw ++ post) = true).
  { destruct (kw ++ post) eqn:Hs; cbn [sql_scan negb andb];
      apply orb_true_iff; left; apply existsb_exists;
      exists (toUpperCase kw); (split; [by apply list_elem_of_In|]);
      rewrite <- Hs, strip_ci_own_case; by rewrite Hpost. }
  assert (Hscan : sql_scan false (pre ++ kw ++ post) = true).
  { apply sql_scan_app; [|exact Hhere].
    unfold ends_off_word in Hpre. by destruct (List.rev pre). }
  assert (Hd : detectInjectionAttempt (pre ++ kw ++ post) = true).
  { eapply pattern_fires; [|exact Hscan|]; [unfold suspiciousPatterns; cbn [In]; auto|].
    intros Htext. apply app_eq_nil in Htext as [_ Htext].
    apply app_eq_nil in Htext as [-> _].
    unfold is_sql_keyword in Hkw. vm_compute in Hkw.
    repeat (apply elem_of_cons in Hkw as [Hkw|Hkw]; [discriminate|]).
    by apply elem_of_nil in Hkw. }
  split; [exact Hd|]. by apply detected_is_rejected.
Qed.

(** *** Splitting at a one-character separator *)

Lemma split_go_single c s : forall cur,
  existsb (N.eqb c) cur = false ->
  let pieces := split_go [c] s 0 cur in
  pieces <> []
  /\ join c pieces = cur ++ s
  /\ Forall (fun p => existsb (N.eqb c) p = false) pieces
  /\ length pieces = S (length (List.filter (N.eqb c) s)).
Proof.
  induction s as [|a s IH]; intros cur Hcur; cbn zeta.
  - cbn. rewrite app_nil_r. repeat split; [done|by constructor].
  - cbn [split_go starts_with List.filter length Nat.sub].
    rewrite andb_true_r. destruct (c =? a)%N eqn:Hca.
    + apply N.eqb_eq in Hca as <-.
      destruct (IH [] eq_refl) as (Hne & Hjoin & Hall & Hlen). cbn zeta in *.
      repeat split; [done| |by constructor|cbn [length]; by rewrite Hlen].
      cbn [join]. destruct (split_go [c] s 0 []); [done|]. by rewrite Hjoin.
    + assert (Hcur' : existsb (N.eqb c) (cur ++ [a]) = false).
      { rewrite existsb_app, Hcur. cbn. by rewrite Hca. }
      destruct (IH _ Hcur') as (Hne & Hjoin & Hall & Hlen). cbn zeta in *.
      repeat split; [done| |done|done]. by rewrite Hjoin, <- app_assoc.
Qed.

(** [split] at a one-character separator loses nothing: joining the pieces
    with the separator gives the text back, no piece contains the
    separator, and there is one piece more than there are separators (so
    the empty text gives one empty piece).  This is how a message is cut
    into lines. *)
Lemma split_join_round_trip c s :
  join c (split [c] s) = s
  /\ Forall (fun p => existsb (N.eqb c) p = false) (split [c] s)
  /\ length (split [c] s) = S (length (List.filter (N.eqb c) s)).
Proof.
  destruct (split_go_single c s [] eq_refl) as (_ & Hjoin & Hall & Hlen).
  done.
Qed.

(** *** Message content *)

Lemma trimStart_newlines n s :
  trimStart (replicate n 10%N ++ s) = trimStart s.
Proof. induction n as [|n IH]; [done|]. cbn. exact IH. Qed.

Lemma split_newlines n s :
  split_go [10%N] (replicate n 10%N ++ s) 0 []
  = replicate n [] ++ split_go [10%N] s 0 [].
Proof. induction n as [|n IH]; [done|]. cbn. by rewrite IH. Qed.

Lemma existsb_replicate {A} (f : A -> bool) n x :
  f x = false -> existsb f (replicate n x) = false.
Proof. intros Hx. induction n as [|n IH]; cbn; [done|]. by rewrite Hx. Qed.

(** What the content check accepts and what it does not bound: an accepted
    content has no NUL and a trimmed length of 1 to 5000; content made of
    whitespace only is rejected; but the length limit is on the trimmed
    text, so content of any length passes when it is padded with line
    breaks. *)
Theorem message_content_limits text blank n :
  (validateMessageContent text = true ->
     (1 <= length (trim text) <= 5000)%nat /\ existsb is_null text = false)
  /\ (forallb is_whitespace blank = true ->
      validateMessageContent blank = false)
  /\ validateMessageContent (replicate n 10%N ++ [97%N]) = true.
Proof.
  unfold validateMessageContent. repeat split.
  - destruct text as [|c text]; [done|].
    destruct (_ <? 1)%nat eqn:H1; [done|]. apply Nat.ltb_ge in H1.
    destruct (5000 <? _)%nat eqn:H2; [done|]. apply Nat.ltb_ge in H2.
    exact H1.
  - destruct text as [|c text]; [done|].
    destruct (_ <? 1)%nat eqn:H1; [done|].
    destruct (5000 <? _)%nat eqn:H2; [done|]. by apply Nat.ltb_ge in H2.
  - destruct text as [|c text]; [done|].
    destruct ((_ <? 1)%nat || _); [done|].
    by destruct (existsb is_null (c :: text)).
  - intros Hblank. destruct blank as [|c blank]; [done|].
    unfold trim. by rewrite (trimStart_blank _ Hblank).
  - assert (Htrim : trim (replicate n 10%N ++ [97%N]) = [97%N]).
    { unfold trim. by rewrite trimStart_newlines. }
    assert (Hnull : existsb is_null (replicate n 10%N ++ [97%N]) = false).
    { rewrite existsb_app. by rewrite existsb_replicate. }
    assert (Hlines : existsb (fun line => (1000 <? length line)%nat)
                       (split [10%N] (replicate n 10%N ++ [97%N])) = false).
    { unfold split. rewrite split_newlines, existsb_app.
      by rewrite existsb_replicate. }
    rewrite Htrim, Hnull, Hlines. by destruct n.
Qed.

(** *** The sanitizer on text without markup *)

Section MoreSanitizerFacts.

Variable purify : jsstring -> jsstring.

Hypothesis purify_plain :
  forall s, existsb (N.eqb 60) s = false -> purify s = s.

(** On text without [<], which the external sanitizer leaves alone, the
    sanitizer returns the trimmed text without its control characters: the
    result holds no control character and no NUL. *)
Theorem sanitizeInput_on_plain_text x :
  existsb (N.eqb 60) x = false ->
  sanitizeInput purify x
  = List.filter (fun c => negb (is_control c)) (trim x)
  /\ existsb is_control (sanitizeInput purify x) = false
  /\ existsb is_null (sanitizeInput purify x) = false.
Proof.
  intros Hlt.
  assert (Heq : sanitizeInput purify x
                = List.filter (fun c => negb (is_control c)) (trim x)).
  { unfold sanitizeInput. destruct x as [|c x]; [done|]. cbn zeta.
    rewrite filter_filter_control. apply purify_plain.
    by apply filter_keeps_absent, trim_keeps_absent. }
  rewrite Heq. split; [done|].
  pose proof (filter_removes is_control (trim x)) as Hctl.
  split; [exact Hctl|]. by apply control_covers_null.
Qed.

End MoreSanitizerFacts.

(** *** Conversation titles *)

Lemma anywhere_needs (bad : N -> bool) (p : jsstring -> bool) :
  (forall s, p s = true -> existsb bad s = true) ->
  forall s, anywhere p s = true -> existsb bad s = true.
Proof.
  intros Hp s. induction s as [|c s IH]; cbn [anywhere].
  - rewrite orb_false_r. apply Hp.
  - intros H. apply orb_true_iff in H as [H|H]; [by apply Hp|].
    cbn. rewrite (IH H). apply orb_true_r.
Qed.

Lemma upper_rigid x b :
  is_upper x = false -> is_lower x = false -> upper x = upper b -> b = x.
Proof.
  unfold upper, is_upper, is_lower, in_range. intros Hu Hl.
  rewrite Hl. destruct ((97 <=? b) && (b <=? 122))%N eqn:Hb; [|done].
  intros ->. apply andb_true_iff in Hb as [H1 H2].
  apply N.leb_le in H1, H2. apply andb_false_iff in Hu as [Hu|Hu].
  - apply N.leb_gt in Hu. lia.
  - apply N.leb_gt in Hu. lia.
Qed.

(** A literal matched under the [i] flag brings its non-letters along. *)
Lemma strip_ci_has x p : forall s rest,
  strip_ci p s = Some rest -> In x p ->
  is_upper x = false -> is_lower x = false ->
  existsb (N.eqb x) s = true.
Proof.
  induction p as [|a p IH]; intros s rest Hs Hin Hu Hl; [done|].
  destruct s as [|b s]; [done|]. cbn in Hs.
  destruct (upper a =? upper b)%N eqn:Hab; [|done].
  destruct Hin as [-> | Hin].
  - apply N.eqb_eq, upper_rigid in Hab; [|done..]. subst b. cbn.
    by rewrite N.eqb_refl.
  - cbn. rewrite (IH s rest); [apply orb_true_r|done..].
Qed.

Lemma title_char_is_harmless c :
  title_char c = true ->
  one_of [123; 125; 36; 91; 93; 59; 38; 124; 96; 40; 41; 60; 58; 47; 92]%N c
  = false.
Proof.
  intros H. unfold one_of. cbn [existsb].
  repeat match goal with
         | |- context [(c =? ?k)%N] =>
             destruct (N.eqb_spec c k) as [->|_]; [vm_compute in H; discriminate|]
         end.
  done.
Qed.

Lemma none_of_title (bad : N -> bool) t :
  (forall c, title_char c = true -> bad c = false) ->
  forallb title_char t = true -> existsb bad t = false.
Proof.
  intros Hbad. induction t as [|c t IH]; [done|]. cbn. intros H.
  apply andb_true_iff in H as [Hc H]. by rewrite (Hbad c Hc), IH.
Qed.

Lemma title_lacks x t :
  In x [123; 125; 36; 91; 93; 59; 38; 124; 96; 40; 41; 60; 58; 47; 92]%N ->
  forallb title_char t = true -> existsb (N.eqb x) t = false.
Proof.
  intros Hx. apply none_of_title. intros c Hc.
  apply title_char_is_harmless in Hc. destruct (N.eqb_spec x c) as [<-|]; [|done].
  exfalso. unfold one_of in Hc.
  assert (Hmem : existsb (N.eqb x)
            [123; 125; 36; 91; 93; 59; 38; 124; 96; 40; 41; 60; 58; 47; 92]%N
          = true).
  { apply existsb_exists. exists x. split; [done|apply N.eqb_refl]. }
  congruence.
Qed.

(** A title made of title characters can only trip the keyword pattern. *)
Lemma valid_title_detection t :
  forallb title_char t = true -> t <> [] ->
  detectInjectionAttempt t = sql_scan false t.
Proof.
  intros Ht Hne. unfold detectInjectionAttempt.
  destruct t as [|c0 t0] eqn:Heqt; [done|]. rewrite <- Heqt in *.
  assert (H2 : existsb (one_of [123; 125; 36; 91; 93]%N) t = false).
  { apply none_of_title; [|done]. intros c Hc.
    apply title_char_is_harmless in Hc. unfold one_of in *. cbn [existsb] in *.
    repeat (apply orb_false_iff in Hc as [? Hc]).
    repeat (apply orb_false_iff; split); done. }
  assert (H5 : existsb (one_of [59; 38; 124; 96; 36; 40; 41]%N) t = false).
  { apply none_of_title; [|done]. intros c Hc.
    apply title_char_is_harmless in Hc. unfold one_of in *. cbn [existsb] in *.
    repeat (apply orb_false_iff in Hc as [? Hc]).
    repeat (apply orb_false_iff; split); done. }
  assert (H3 : anywhere script_tag t = false).
  { destruct (anywhere script_tag t) eqn:Ha; [|done].
    apply (anywhere_needs (N.eqb 60)) in Ha.
    - rewrite title_lacks in Ha; [done|cbn; auto 20|done].
    - intros s Hs. unfold script_tag in Hs.
      destruct (strip_ci (lit "<script") s) as [rest|] eqn:Hstrip; [|done].
      eapply (strip_ci_has 60); [exact Hstrip| |done..]. vm_compute. auto 20. }
  assert (H4 : anywhere (fun s => bool_decide
                  (is_Some (strip_ci (lit "javascript:") s))) t = false).
  { match goal with |- ?a = false => destruct a eqn:Ha; [|done] end.
    apply (anywhere_needs (N.eqb 58)) in Ha.
    - rewrite title_lacks in Ha; [done|cbn; auto 20|done].
    - intros s Hs. apply bool_decide_eq_true in Hs as [rest Hstrip].
      eapply (strip_ci_has 58); [exact Hstrip| |done..]. vm_compute. auto 20. }
  assert (H67 : forall x, In x [47; 92]%N ->
            anywhere (starts_with [46; 46; x]%N) t = false).
  { intros x Hx.
    match goal with |- ?a = false => destruct a eqn:Ha; [|done] end.
    apply (anywhere_needs (N.eqb x)) in Ha.
    - rewrite title_lacks in Ha; [done| |done].
      destruct Hx as [<-|[<-|[]]]; cbn; auto 20.
    - intros s Hs. apply starts_with_prefix in Hs as [rest ->]. cbn.
      by rewrite N.eqb_refl, !orb_true_r. }
  cbn [existsb suspiciousPatterns].
  rewrite H2, H3, H4, H5, (H67 47%N), (H67 92%N) by (cbn; auto).
  by rewrite !orb_false_r.
Qed.

(** [createSecureConversation] returns null exactly when the user id or the
    title is not valid or the injection heuristic fires on the title; an
    object it returns carries the user id as given and the sanitized title
    in both title fields.  Since a valid title has none of the characters
    the other patterns look for, a valid title of a valid user is refused
    exactly when it contains a keyword of the first pattern as a word. *)
Theorem createSecureConversation_result purify uid t :
  (createSecureConversation purify uid t = None
   <-> validateUserId uid = false \/ validateConversationTitle t = false
       \/ detectInjectionAttempt t = true)
  /\ (forall m, createSecureConversation purify uid t = Some m ->
        conversationUserId m = uid
        /\ title m = sanitizeInput purify t
        /\ sanitizedTitle m = sanitizeInput purify t)
  /\ (validateConversationTitle t = true ->
      detectInjectionAttempt t = sql_scan false t)
  /\ (validateUserId uid = true -> validateConversationTitle t = true ->
      (createSecureConversation purify uid t = None <-> sql_scan false t = true)).
Proof.
  assert (Hvalid : validateConversationTitle t = true ->
                   detectInjectionAttempt t = sql_scan false t).
  { unfold validateConversationTitle. destruct t as [|c t'] eqn:Heqt; [done|].
    rewrite <- Heqt. destruct (_ || _); [done|].
    destruct (existsb is_null t); [done|]. intros H.
    apply andb_true_iff in H as [H _]. apply andb_true_iff in H as [H _].
    apply valid_title_detection; [done|by rewrite Heqt]. }
  unfold createSecureConversation.
  split; [|split; [|split; [exact Hvalid|]]].
  - destruct (validateUserId uid), (validateConversationTitle t),
      (detectInjectionAttempt t); cbn;
      (split; [try done; auto|intros [|[|]]; done]).
  - destruct (validateUserId uid), (validateConversationTitle t),
      (detectInjectionAttempt t); cbn; try done. by intros m [= <-].
  - intros -> Ht. rewrite <- (Hvalid Ht), Ht. cbn.
    by destruct (detectInjectionAttempt t).
Qed.

(** *** E-mail addresses *)

Lemma break_at_spec c s l r :
  break_at c s = Some (l, r) ->
  s = l ++ c :: r /\ existsb (N.eqb c) l = false.
Proof.
  revert l r. induction s as [|a s IH]; intros l r; cbn; [done|].
  destruct (a =? c)%N eqn:Hac.
  - intros [= <- <-]. apply N.eqb_eq in Hac as ->. done.
  - destruct (break_at c s) as [[l' r']|]; cbn; [|done]. intros [= <- <-].
    destruct (IH l' r' eq_refl) as [-> Hl]. split; [done|]. cbn.
    rewrite N.eqb_sym in Hac. by rewrite Hac.
Qed.

Lemma forallb_join (ok : N -> bool) c pieces :
  ok c = true -> forallb (forallb ok) pieces = true ->
  forallb ok (join c pieces) = true.
Proof.
  intros Hc. induction pieces as [|p ps IH]; [done|]. cbn [forallb join].
  intros H. apply andb_true_iff in H as [Hp Hps].
  destruct ps as [|q ps]; [done|].
  rewrite forallb_app, Hp. cbn [forallb]. rewrite Hc. by apply IH.
Qed.

Lemma forallb_weaken {A} (f g : A -> bool) l :
  (forall a, f a = true -> g a = true) ->
  forallb f l = true -> forallb g l = true.
Proof.
  intros Hfg. induction l as [|a l IH]; [done|]. cbn. intros H.
  apply andb_true_iff in H as [Ha Hl]. by rewrite (Hfg a Ha), IH.
Qed.

Lemma label_chars l : is_label l = true -> forallb email_char l = true.
Proof.
  unfold is_label. destruct l as [|c l']; [done|]. intros H.
  apply andb_true_iff in H as [H _]. apply andb_true_iff in H as [_ H].
  eapply forallb_weaken; [|exact H]. intros a Ha.
  unfold email_char, email_local_char.
  apply orb_true_iff in Ha as [->|Ha]; [done|].
  apply N.eqb_eq in Ha as ->. by rewrite orb_true_r.
Qed.

Lemma label_has_no_dot l : is_label l = true -> existsb (N.eqb 46) l = false.
Proof.
  intros H.
  assert (Hall : forallb (fun a => is_alnum a || (a =? 45)%N) l = true).
  { unfold is_label in H. destruct l as [|c l']; [done|].
    apply andb_true_iff in H as [H _]. by apply andb_true_iff in H as [_ H]. }
  clear H. induction l as [|a l IH]; [done|].
  cbn [existsb forallb] in *. apply andb_true_iff in Hall as [Ha Hl].
  rewrite (IH Hl), orb_false_r.
  destruct (N.eqb_spec 46 a) as [<-|]; [by vm_compute in Ha|done].
Qed.

Lemma split_go_absent c s : forall cur,
  existsb (N.eqb c) s = false -> split_go [c] s 0 cur = [cur ++ s].
Proof.
  induction s as [|a s IH]; intros cur Hs.
  - by rewrite app_nil_r.
  - cbn [existsb] in Hs. apply orb_false_iff in Hs as [Ha Hs].
    cbn [split_go starts_with]. rewrite Ha. cbn [andb].
    rewrite (IH _ Hs). by rewrite <- app_assoc.
Qed.

Lemma split_absent c s :
  existsb (N.eqb c) s = false -> split [c] s = [s].
Proof. apply (split_go_absent c s []). Qed.

(** An address the e-mail check accepts is a non-empty local part, an [@]
    and a non-empty domain, and is made only of ASCII letters, digits, [@]
    and the characters [.!#$%&'*+/=?^_`{|}~-]: no whitespace, no control
    character, no angle bracket.  The domain needs no dot: a local part
    followed by [@] and a single label is accepted. *)
Theorem accepted_email_shape email local label :
  (validateEmail email = true ->
     (exists l d, email = l ++ 64%N :: d /\ l <> [] /\ d <> []
                  /\ existsb (N.eqb 64) l = false)
     /\ forallb email_char email = true)
  /\ (local <> [] -> forallb email_local_char local = true ->
      is_label label = true ->
      validateEmail (local ++ 64%N :: label) = true).
Proof.
  split.
  - unfold validateEmail.
    destruct (break_at 64 email) as [[l d]|] eqn:Hb; [|done].
    apply break_at_spec in Hb as [-> Hl].
    destruct l as [|c l]; [done|]. intros H.
    apply andb_true_iff in H as [Hloc Hdom].
    destruct (split_go_single 46 d [] eq_refl) as (_ & Hjoin & _ & _).
    fold (split [46%N] d) in Hjoin. cbn [app] in Hjoin.
    split.
    + exists (c :: l), d. repeat split; try done.
      intros ->. by vm_compute in Hdom.
    + rewrite forallb_app. cbn [forallb]. apply andb_true_iff. split.
      * apply (forallb_weaken email_local_char email_char (c :: l));
          [|exact Hloc]. intros a Ha. unfold email_char. by rewrite Ha.
      * change (email_char 64) with true. cbn [andb].
        rewrite <- Hjoin. apply forallb_join; [done|].
        eapply forallb_weaken; [|exact Hdom]. intros p. apply label_chars.
  - intros Hne Hloc Hlab.
    assert (Hno_at : existsb (N.eqb 64) local = false).
    { clear Hne. induction local as [|a l IH]; [done|]. cbn [existsb forallb break_at app split_go] in *.
      apply andb_true_iff in Hloc as [Ha Hl]. rewrite (IH Hl), orb_false_r.
      destruct (N.eqb_spec 64 a) as [<-|]; [by vm_compute in Ha|done]. }
    assert (Hbreak : break_at 64 (local ++ 64%N :: label) = Some (local, label)).
    { clear Hne Hloc. induction local as [|a l IH]; [done|]. cbn [existsb forallb break_at app split_go] in *.
      apply orb_false_iff in Hno_at as [Ha Hl]. rewrite N.eqb_sym in Ha.
      rewrite Ha. by rewrite (IH Hl). }
    assert (Hsplit : split [46%N] label = [label]).
    { apply split_absent, label_has_no_dot, Hlab. }
    unfold validateEmail. rewrite Hbreak, Hsplit.
    destruct local as [|a l]; [done|]. rewrite Hloc. cbn. by rewrite Hlab.
Qed.

(** *** Identifiers *)

(** A valid user id is 20 to 40 ASCII letters and digits, so every valid
    user id is also a valid conversation id. *)
Theorem valid_user_id_is_document_id u :
  validateUserId u = true ->
  validateConversationId u = true
  /\ (20 <= length u <= 40)%nat
  /\ forall c, In c u -> is_alnum c = true.
Proof.
  unfold validateUserId, validateConversationId.
  destruct u as [|c0 u0] eqn:Hu; [done|]. rewrite <- Hu. clear Hu c0 u0.
  intros H. apply andb_true_iff in H as [H Hhi].
  apply andb_true_iff in H as [Hall Hlo].
  apply Nat.leb_le in Hlo, Hhi.
  rewrite (forallb_weaken is_alnum
             (fun c => is_alnum c || (c =? 45)%N || (c =? 95)%N) u);
    [|by intros a ->|done].
  rewrite (proj2 (Nat.leb_le 1 (length u))) by lia.
  rewrite (proj2 (Nat.leb_le (length u) 255)) by lia.
  repeat split; [lia..|]. intros c Hc.
  by apply (proj1 (forallb_forall is_alnum u) Hall).
Qed.

(** * Instances of the further properties *)


Lemma ban_user_twice_witness :
  let r := twice (handleBanUser sample_env strict)
             (ban_request "token.of.admin" "user000001" 60) sample_world in
  exists b1 b2,
    r.1.1 = mkResponse 200 UserBanned /\ r.1.2 = mkResponse 200 UserBanned
    /\ bans (store r.2) = [b1; b2]
    /\ bannedAt b1 = 1000 /\ bannedAt b2 = 1002.
Proof.
  pose proof (ban_user_twice sample_env strict
                (ban_request "token.of.admin" "user000001" 60) sample_world
                (mkBanUserInput (lit "token.of.admin") (lit "user000001")
                   (lit "spamming the channel") 60)
                sample_verifyIdToken (lit "admin00001") sample_user
                ltac:(vm_compute; reflexivity) ltac:(reflexivity)
                ltac:(vm_compute; reflexivity) ltac:(vm_compute; reflexivity)
                ltac:(vm_compute; reflexivity) ltac:(vm_compute; reflexivity))
    as H.
  cbv zeta in H.
  destruct H as (b1 & b2 & H1 & H2 & Hb & _ & _ & _ & _ & Ht1 & Ht2).
  exists b1, b2. repeat split; assumption.
Defined.

Lemma create_license_collision_witness :
  let r := twice (handleCreateLicense sample_env_same_ms)
             (license_request "token.of.admin") sample_world in
  exists k rec,
    r.1.1 = mkResponse 200 (LicenseCreated k)
    /\ r.1.2 = mkResponse 200 (LicenseCreated k)
    /\ licenses (store r.2) = {[ k := rec ]}.
Proof.
  pose proof (create_license_collision sample_env_same_ms
                (license_request "token.of.admin") sample_world
                116%N (lit "oken.of.admin") sample_verifyIdToken
                (lit "admin00001") Pro 30
                ltac:(vm_compute; reflexivity) ltac:(reflexivity)
                ltac:(vm_compute; reflexivity) ltac:(vm_compute; reflexivity)
                ltac:(vm_compute; reflexivity) ltac:(reflexivity)
                ltac:(reflexivity)) as H.
  cbv zeta in H. destruct H as (k & H1 & H2 & Hl).
  eexists k, _. split; [exact H1|]. split; [exact H2|]. exact Hl.
Defined.

Lemma bearer_token_of_header_witness :
  bearer_token (mkRequest (Some (lit "Bearer " ++ lit "token.of.admin")) ∅)
  = Some (lit "token.of.admin")
  /\ bearer_token (mkRequest (Some (lit "token.of.admin")) ∅) = None
  /\ bearer_token (mkRequest None ∅) = None.
Proof.
  apply (bearer_token_of_header ∅ (lit "token.of.admin") (lit "token.of.admin"));
    vm_compute; reflexivity.
Defined.

Lemma denied_call_changes_nothing_witness :
  (isAllowed sample_limiter 1003 sample_storage_full).1 = false
  /\ (isAllowed sample_limiter 1003 sample_storage_full).2 = sample_storage_full.
Proof.
  split; [vm_compute; reflexivity|].
  apply (denied_call_changes_nothing sample_limiter 1003 sample_storage_full
           ltac:(vm_compute; reflexivity)).
Defined.

Lemma stored_count_is_bounded_witness :
  exists c,
    stored_count sample_limiter
      (calls sample_limiter [1000; 1001; 1002; 1003; 1004] (Some ∅)).2 = Some c
    /\ 1 <= c <= 3.
Proof.
  apply (stored_count_is_bounded sample_limiter
           [1000; 1001; 1002; 1003; 1004] ∅
           ltac:(left; apply lookup_empty) ltac:(discriminate)).
Defined.

Lemma rate_limiters_are_independent_witness :
  (isAllowed sample_limiter 1004
     (isAllowed (new_RateLimiter (lit "login") 5 1000) 1003
        sample_storage_full).2).1
  = (isAllowed sample_limiter 1004 sample_storage_full).1
  /\ (isAllowed sample_limiter 1004
        (reset (new_RateLimiter (lit "login") 5 1000) sample_storage_full)).1
     = (isAllowed sample_limiter 1004 sample_storage_full).1.
Proof.
  pose proof (rate_limiters_are_independent (lit "send") (lit "login")
                3 60000 5 1000 1004 1003 sample_storage_full
                ltac:(intros H; vm_compute in H; discriminate H)) as H.
  cbv zeta in H. destruct H as (_ & _ & Hcall & Hreset).
  split; [exact Hcall|exact Hreset].
Defined.

Lemma flagged_characters_are_rejected_witness :
  detectInjectionAttempt (lit "it costs $5") = true
  /\ createSecureMessage stripTags (lit "conv-1") (lit "abcdefghij0123456789")
       (lit "it costs $5") = None
  /\ createSecureConversation stripTags (lit "abcdefghij0123456789")
       (lit "it costs $5") = None.
Proof.
  apply (flagged_characters_are_rejected stripTags (lit "conv-1")
           (lit "abcdefghij0123456789") (lit "it costs $5")
           ltac:(vm_compute; reflexivity)).
Defined.

Lemma standalone_keyword_is_rejected_witness :
  detectInjectionAttempt (lit "salt " ++ lit "and" ++ lit " pepper") = true
  /\ createSecureMessage stripTags (lit "conv-1") (lit "abcdefghij0123456789")
       (lit "salt " ++ lit "and" ++ lit " pepper") = None
  /\ createSecureConversation stripTags (lit "abcdefghij0123456789")
       (lit "salt " ++ lit "and" ++ lit " pepper") = None.
Proof.
  apply (standalone_keyword_is_rejected stripTags (lit "conv-1")
           (lit "abcdefghij0123456789") (lit "salt ") (lit "and") (lit " pepper")
           ltac:(apply list_elem_of_In; vm_compute; auto 20)
           ltac:(vm_compute; reflexivity) ltac:(vm_compute; reflexivity)).
Defined.

Lemma sanitizeInput_on_plain_text_witness :
  sanitizeInput stripTags (lit "  a & b  ")
  = List.filter (fun c => negb (is_control c)) (trim (lit "  a & b  "))
  /\ existsb is_control (sanitizeInput stripTags (lit "  a & b  ")) = false
  /\ existsb is_null (sanitizeInput stripTags (lit "  a & b  ")) = false.
Proof.
  apply (sanitizeInput_on_plain_text stripTags stripTags_plain
           (lit "  a & b  ") ltac:(vm_compute; reflexivity)).
Defined.

Lemma createSecureConversation_result_witness :
  createSecureConversation stripTags (lit "abcdefghij0123456789")
    (lit "black and white") = None
  /\ createSecureConversation stripTags (lit "abcdefghij0123456789")
       (lit "android") <> None.
Proof.
  split.
  - apply (proj2 (proj2 (proj2 (createSecureConversation_result stripTags
             (lit "abcdefghij0123456789") (lit "black and white")))));
      vm_compute; reflexivity.
  - intros Hnone.
    apply (proj2 (proj2 (proj2 (createSecureConversation_result stripTags
             (lit "abcdefghij0123456789") (lit "android"))))) in Hnone;
      [|vm_compute; reflexivity..].
    vm_compute in Hnone. discriminate Hnone.
Defined.

Lemma accepted_email_shape_witness :
  validateEmail (lit "root" ++ 64%N :: lit "localhost") = true.
Proof.
  apply (proj2 (accepted_email_shape [] (lit "root") (lit "localhost")));
    [vm_compute; discriminate|vm_compute; reflexivity..].
Defined.

Lemma strict_reason_is_trimmed_late_witness :
  reason_schema strict (JStr (lit "     ")) = Some [].
Proof.
  apply (proj2 (strict_reason_is_trimmed_late JUndefined [] (lit "     ")));
    [vm_compute; reflexivity|vm_compute; split; discriminate].
Defined.

Lemma create_license_rejections_witness :
  handleCreateLicense sample_env (mkRequest None ∅) sample_world
  = (mkResponse 400 (Failure "Failed to create license"
                       (Some (Error "No ID token provided"))), sample_world).
Proof.
  apply (proj1 (create_license_rejections sample_env (mkRequest None ∅)
                  sample_world)).
  intros c tok H. vm_compute in H. discriminate H.
Defined.

Lemma valid_user_id_is_document_id_witness :
  validateConversationId (lit "abcdefghij0123456789") = true.
Proof.
  apply (valid_user_id_is_document_id (lit "abcdefghij0123456789")
           ltac:(vm_compute; reflexivity)).
Defined.
